(** * The pharmacy schema of [pharmacy/models.py] and its persistence rules

    [models.py] is a declarative Django schema: thirteen record types that
    share an abstract time-stamped base, three status enumerations, and the
    foreign keys between the records.  The declarations are embedded here as
    data ([field], [fields], [unique_together]); the behaviour the
    declarations ask of the object-relational layer and of the relational
    store (defaults, [pre_save] of the time stamps, column constraints,
    the deletion collector, field validation) is written once, as an
    interpreter over those declarations. *)

From stdpp Require Import gmap strings list fin_maps relations pretty.

Local Open Scope string_scope.
Local Open Scope Z_scope.

(** ** Values and declarations *)

(** The concrete models of the module, and [User], which [models.py]
    imports from [django.contrib.auth.models]. *)
Inductive model : Set :=
  | User
  | Product | Batch | Warehouse | Inventory
  | Supplier | PurchaseOrder | PurchaseOrderDetail
  | GoodsReceipt | GoodsReceiptDetail
  | Customer | Sale | SaleDetail
  | WriteOff.

#[global] Instance model_eq_dec : EqDecision model.
Proof. solve_decision. Defined.

Definition all_models : list model :=
  [User; Product; Batch; Warehouse; Inventory; Supplier; PurchaseOrder;
   PurchaseOrderDetail; GoodsReceipt; GoodsReceiptDetail; Customer; Sale;
   SaleDetail; WriteOff].

(** A column value.  [VNull] is Python's [None] and SQL's NULL; a decimal is
    kept as its unscaled integer (hundredths, since every decimal column of
    the schema has two decimal places); dates and date-times are ticks of a
    clock; [VRef pk] is a foreign key holding the primary key [pk]. *)
Inductive value : Set :=
  | VNull
  | VStr (s : string)
  | VInt (z : Z)
  | VBool (b : bool)
  | VDec (unscaled : Z)
  | VDate (d : nat)
  | VTime (t : nat)
  | VRef (pk : nat).

#[global] Instance value_eq_dec : EqDecision value.
Proof. solve_decision. Defined.

(** The two deletion policies the schema uses. *)
Inductive on_delete_policy : Set := CASCADE | SET_NULL.

#[global] Instance on_delete_policy_eq_dec : EqDecision on_delete_policy.
Proof. solve_decision. Defined.

Inductive field_kind : Set :=
  | CharField
  | TextField
  | EmailField
  | BooleanField
  | PositiveIntegerField
  | DecimalField
  | DateField
  | DateTimeField
  | ForeignKey (to : model) (on_delete : on_delete_policy).

#[global] Instance field_kind_eq_dec : EqDecision field_kind.
Proof. solve_decision. Defined.

(** Keyword arguments of a field declaration.  [null], [blank], [unique],
    [auto_now_add] and [auto_now] stand for the keyword set to [True]. *)
Inductive field_option : Set :=
  | max_length (n : nat)
  | unique
  | blank
  | null
  | default (v : value)
  | choices (cs : list (string * string))
  | auto_now_add
  | auto_now
  | max_digits (n : nat)
  | decimal_places (n : nat)
  | related_name (s : string)
  | help_text (s : string)
  | verbose_name (s : string).

Record field : Set := Field {
  fname : string;
  fkind : field_kind;
  fopts : list field_option
}.

(** ** 1. Helper classes and constants *)

Module TimeStampedModel.
Definition fields : list field :=
  [ Field "created_at" DateTimeField [auto_now_add];
    Field "updated_at" DateTimeField [auto_now] ].
End TimeStampedModel.

Module OrderStatus.
Definition DRAFT : string := "draft".
Definition SENT : string := "sent".
Definition RECEIVED : string := "received".
Definition CANCELLED : string := "cancelled".
Definition choices : list (string * string) :=
  [ (DRAFT, "Черновик"); (SENT, "Отправлен");
    (RECEIVED, "Получен"); (CANCELLED, "Отменён") ].
End OrderStatus.

Module ReceiptStatus.
Definition PENDING : string := "pending".
Definition PARTIAL : string := "partial".
Definition COMPLETED : string := "completed".
Definition REJECTED : string := "rejected".
Definition choices : list (string * string) :=
  [ (PENDING, "Ожидается"); (PARTIAL, "Частично принято");
    (COMPLETED, "Завершено"); (REJECTED, "Отклонено") ].
End ReceiptStatus.

Module SaleStatus.
Definition OPEN : string := "open".
Definition COMPLETED : string := "completed".
Definition RETURNED : string := "returned".
Definition choices : list (string * string) :=
  [ (OPEN, "Открыт"); (COMPLETED, "Оплачен"); (RETURNED, "Возврат") ].
End SaleStatus.

(** ** 2.-6. The models *)

(** The fields each class declares itself, in declaration order. *)
Definition own_fields (m : model) : list field :=
  match m with
  | User =>
      (* django.contrib.auth.models.User, abridged to its natural key: the
         schema only refers to it through [Sale.cashier]. *)
      [ Field "username" CharField [max_length 150; unique] ]
  | Product =>
      [ Field "name" CharField [max_length 255];
        Field "product_code" CharField
          [max_length 100; unique;
           help_text "Штрихкод, внутр. код или код маркировки"];
        Field "form" CharField
          [max_length 100; blank;
           help_text "Лекарственная форма (таблетки, капсулы и т.д.)"];
        Field "composition" TextField
          [blank; help_text "Действующее вещество / состав"];
        Field "manufacturer" CharField [max_length 255; blank];
        Field "is_restricted" BooleanField
          [default (VBool false); help_text "Рецептурный / особый контроль?"];
        Field "min_stock_level" PositiveIntegerField
          [default (VInt 0); help_text "Минимальный остаток"];
        Field "max_stock_level" PositiveIntegerField
          [default (VInt 0); help_text "Максимальный остаток"] ]
  | Batch =>
      [ Field "product" (ForeignKey Product CASCADE) [related_name "batches"];
        Field "batch_number" CharField [max_length 100; blank];
        Field "expiration_date" DateField [blank; null] ]
  | Warehouse =>
      [ Field "name" CharField
          [max_length 255; help_text "Например, 'Аптека №1 на Ленина'"];
        Field "location" CharField [max_length 255; blank];
        Field "warehouse_type" CharField [max_length 50; blank] ]
  | Inventory =>
      [ Field "warehouse" (ForeignKey Warehouse CASCADE)
          [related_name "inventory"];
        Field "product" (ForeignKey Product CASCADE)
          [related_name "inventory_items"];
        Field "batch" (ForeignKey Batch SET_NULL) [blank; null];
        Field "quantity" PositiveIntegerField
          [default (VInt 0); help_text "Текущее количество"];
        Field "cost_price" DecimalField
          [max_digits 10; decimal_places 2; default (VDec 0)];
        Field "retail_price" DecimalField
          [max_digits 10; decimal_places 2; default (VDec 0)] ]
  | Supplier =>
      [ Field "name" CharField [max_length 255];
        Field "contact_info" CharField [max_length 255; blank];
        Field "address" CharField [max_length 255; blank];
        Field "inn" CharField [max_length 20; blank; verbose_name "ИНН"];
        Field "ogrn" CharField [max_length 20; blank; verbose_name "ОГРН"] ]
  | PurchaseOrder =>
      [ Field "supplier" (ForeignKey Supplier CASCADE)
          [related_name "purchase_orders"];
        Field "warehouse" (ForeignKey Warehouse CASCADE)
          [related_name "purchase_orders"];
        Field "order_date" DateTimeField [auto_now_add];
        Field "status" CharField
          [max_length 20; choices OrderStatus.choices;
           default (VStr OrderStatus.DRAFT)];
        Field "total_cost" DecimalField
          [max_digits 12; decimal_places 2; default (VDec 0)] ]
  | PurchaseOrderDetail =>
      [ Field "purchase_order" (ForeignKey PurchaseOrder CASCADE)
          [related_name "order_details"];
        Field "product" (ForeignKey Product CASCADE) [];
        Field "quantity" PositiveIntegerField [default (VInt 0)];
        Field "price" DecimalField
          [max_digits 10; decimal_places 2; default (VDec 0)];
        Field "discount" DecimalField
          [max_digits 6; decimal_places 2; default (VDec 0);
           help_text "Скидка, если есть"] ]
  | GoodsReceipt =>
      [ Field "purchase_order" (ForeignKey PurchaseOrder SET_NULL)
          [blank; null; related_name "goods_receipts"];
        Field "warehouse" (ForeignKey Warehouse CASCADE)
          [related_name "goods_receipts"];
        Field "receipt_date" DateTimeField [auto_now_add];
        Field "status" CharField
          [max_length 20; choices ReceiptStatus.choices;
           default (VStr ReceiptStatus.PENDING)] ]
  | GoodsReceiptDetail =>
      [ Field "goods_receipt" (ForeignKey GoodsReceipt CASCADE)
          [related_name "receipt_details"];
        Field "product" (ForeignKey Product CASCADE) [];
        Field "batch" (ForeignKey Batch SET_NULL) [blank; null];
        Field "quantity" PositiveIntegerField [default (VInt 0)];
        Field "cost_price" DecimalField
          [max_digits 10; decimal_places 2; default (VDec 0)];
        Field "expiration_date" DateField [blank; null] ]
  | Customer =>
      [ Field "name" CharField [max_length 100; blank];
        Field "surname" CharField [max_length 100; blank];
        Field "phone" CharField [max_length 20; blank];
        Field "email" EmailField [blank];
        Field "discount_card_number" CharField [max_length 50; blank] ]
  | Sale =>
      [ Field "warehouse" (ForeignKey Warehouse CASCADE)
          [related_name "sales"];
        Field "cashier" (ForeignKey User SET_NULL) [blank; null];
        Field "customer" (ForeignKey Customer SET_NULL) [blank; null];
        Field "sale_date" DateTimeField [auto_now_add];
        Field "status" CharField
          [max_length 20; choices SaleStatus.choices;
           default (VStr SaleStatus.OPEN)];
        Field "total_amount" DecimalField
          [max_digits 12; decimal_places 2; default (VDec 0)];
        Field "payment_type" CharField
          [max_length 50; default (VStr "cash");
           help_text "наличные / карта / смешанная и т.д."] ]
  | SaleDetail =>
      [ Field "sale" (ForeignKey Sale CASCADE) [related_name "sale_details"];
        Field "product" (ForeignKey Product CASCADE) [];
        Field "batch" (ForeignKey Batch SET_NULL) [blank; null];
        Field "quantity" PositiveIntegerField [default (VInt 1)];
        Field "unit_price" DecimalField
          [max_digits 10; decimal_places 2; default (VDec 0)];
        Field "discount" DecimalField
          [max_digits 6; decimal_places 2; default (VDec 0)] ]
  | WriteOff =>
      [ Field "warehouse" (ForeignKey Warehouse CASCADE)
          [related_name "write_offs"];
        Field "product" (ForeignKey Product CASCADE) [];
        Field "batch" (ForeignKey Batch SET_NULL) [blank; null];
        Field "quantity" PositiveIntegerField [default (VInt 0)];
        Field "reason" CharField
          [max_length 255; blank;
           help_text "Причина списания (просрочка, брак и т.д.)"] ]
  end.

(** Whether the class derives from [TimeStampedModel]: every class of the
    module does; the imported [User] does not. *)
Definition time_stamped (m : model) : bool :=
  match m with User => false | _ => true end.

(** The columns of a model: the inherited time stamps, then its own. *)
Definition fields (m : model) : list field :=
  (if time_stamped m then TimeStampedModel.fields else []) ++ own_fields m.

(** [Meta.unique_together]. *)
Definition unique_together (m : model) : list (list string) :=
  match m with
  | Inventory => [ ["warehouse"; "product"; "batch"] ]
  | _ => []
  end.

(** ** Reading a declaration *)

#[global] Instance field_option_eq_dec : EqDecision field_option.
Proof. solve_decision. Defined.

Definition nullable (f : field) : bool := bool_decide (null ∈ fopts f).
Definition is_unique (f : field) : bool := bool_decide (unique ∈ fopts f).
Definition is_blank (f : field) : bool := bool_decide (blank ∈ fopts f).

Fixpoint declared_default (os : list field_option) : option value :=
  match os with
  | [] => None
  | default v :: _ => Some v
  | _ :: os => declared_default os
  end.

Fixpoint declared_choices (os : list field_option)
  : option (list (string * string)) :=
  match os with
  | [] => None
  | choices cs :: _ => Some cs
  | _ :: os => declared_choices os
  end.

Fixpoint declared_max_length (os : list field_option) : option nat :=
  match os with
  | [] => None
  | max_length n :: _ => Some n
  | _ :: os => declared_max_length os
  end.

Definition empty_strings_allowed (k : field_kind) : bool :=
  match k with
  | CharField | TextField | EmailField => true
  | _ => false
  end.

(** [Field.get_default]: the declared default; failing that the empty
    string for a text column that is not nullable, and [None] otherwise. *)
Definition get_default (f : field) : value :=
  match declared_default (fopts f) with
  | Some v => v
  | None =>
      if empty_strings_allowed (fkind f) && negb (nullable f)
      then VStr "" else VNull
  end.

Definition field_names (m : model) : list string := fname <$> fields m.

(** The foreign keys that point at [target] with policy [od], as
    (referring model, column) pairs: the related objects the deletion
    collector walks. *)
Definition foreign_keys_to (target : model) (od : on_delete_policy)
  : list (model * string) :=
  m ← all_models;
  f ← fields m;
  if decide (fkind f = ForeignKey target od) then [(m, fname f)] else [].

(** ** The store *)

Abbreviation row := (gmap string value).
Abbreviation table := (gmap nat (gmap string value)).

(** One table per model, keyed by primary key. *)
Definition db : Type := model → table.

Definition empty_db : db := λ _, ∅.

Definition set_table (m : model) (t : table) (st : db) : db :=
  λ m', if decide (m' = m) then t else st m'.

Inductive violation : Set :=
  | NotNullViolation (column : string)
  | UniqueViolation (columns : list string)
  | CheckViolation (column : string)
  | ForeignKeyViolation (column : string).

#[global] Instance violation_eq_dec : EqDecision violation.
Proof. solve_decision. Defined.

Inductive error : Set :=
  | TypeError            (* unexpected keyword argument *)
  | ValueError           (* a value of the wrong type for its column *)
  | DoesNotExist
  | IntegrityError (vs : list violation).

Inductive result (A : Type) : Type :=
  | Ok (a : A)
  | Err (e : error).
Arguments Ok {A} a.
Arguments Err {A} e.

Definition is_ok {A : Type} (r : result A) : bool :=
  match r with Ok _ => true | Err _ => false end.

(** An attribute of an instance; an attribute never set reads as [None]. *)
Definition getattr (inst : row) (n : string) : value :=
  match inst !! n with Some v => v | None => VNull end.

(** [Model.__init__] with keyword arguments: every column takes the keyword argument of
    its name or else its default. *)
Definition init (m : model) (kwargs : row) : row :=
  list_to_map
    ((λ f, (fname f,
            match kwargs !! fname f with
            | Some v => v
            | None => get_default f
            end)) <$> fields m).

(** [DateTimeField.pre_save]: the clock when [auto_now], or [auto_now_add]
    on insertion; the attribute of the instance otherwise. *)
Definition stamps (add : bool) (f : field) : bool :=
  match fkind f with
  | DateTimeField =>
      bool_decide (auto_now ∈ fopts f)
      || (bool_decide (auto_now_add ∈ fopts f) && add)
  | _ => false
  end.

Definition pre_save (now : nat) (add : bool) (f : field) (inst : row) : value :=
  if stamps add f then VTime now else getattr inst (fname f).

(** The row written by [save]: one value per column. *)
Definition to_row (now : nat) (add : bool) (m : model) (inst : row) : row :=
  list_to_map ((λ f, (fname f, pre_save now add f inst)) <$> fields m).

(** [get_prep_value]: a value must have the type of its column.  Values
    are typed here; Python's conversions between types (an integer given as
    a string, a string built from a number) are not modelled, and a value of
    another type is refused. *)
Definition prep_ok (k : field_kind) (v : value) : bool :=
  match v, k with
  | VNull, _ => true
  | VStr _, (CharField | TextField | EmailField) => true
  | VInt _, PositiveIntegerField => true
  | VBool _, BooleanField => true
  | VDec _, DecimalField => true
  | VDate _, DateField => true
  | VTime _, DateTimeField => true
  | VRef _, ForeignKey _ _ => true
  | _, _ => false
  end.

Definition prepared (m : model) (r : row) : bool :=
  forallb (λ f, prep_ok (fkind f) (getattr r (fname f))) (fields m).

(** Some row of [t] carries the values of [r] in all of [cols]. *)
Definition taken (t : table) (cols : list string) (r : row) : Prop :=
  map_Exists (λ _ r', Forall (λ c, r' !! c = r !! c) cols) t.

(** A unique index over [cols]: NULL is distinct from everything, itself
    included, so a row with a NULL among [cols] never conflicts. *)
Definition unique_violation (t : table) (cols : list string) (r : row)
  : list violation :=
  if decide (Forall (λ c, getattr r c ≠ VNull) cols ∧ taken t cols r)
  then [UniqueViolation cols] else [].

(** The constraints of one column on the row [r] stored under [pk]. *)
Definition field_violations (st : db) (m : model) (pk : nat) (r : row)
    (f : field) : list violation :=
  (if negb (nullable f) && bool_decide (getattr r (fname f) = VNull)
   then [NotNullViolation (fname f)] else [])
  ++ match fkind f, getattr r (fname f) with
     | PositiveIntegerField, VInt z =>
         if decide (0 ≤ z) then [] else [CheckViolation (fname f)]
     | ForeignKey to _, VRef k =>
         match st to !! k with
         | Some _ => []
         | None => [ForeignKeyViolation (fname f)]
         end
     | _, _ => []
     end
  ++ (if is_unique f
      then unique_violation (delete pk (st m)) [fname f] r else []).

Definition violations (st : db) (m : model) (pk : nat) (r : row)
  : list violation :=
  (fields m ≫= field_violations st m pk r)
  ++ (unique_together m ≫= λ cols, unique_violation (delete pk (st m)) cols r).

(** Writing the row [r] under [pk]: INSERT or UPDATE.  The store reports
    every constraint the row violates. *)
Definition write (m : model) (pk : nat) (r : row) (st : db) : result db :=
  if prepared m r then
    match violations st m pk r with
    | [] => Ok (set_table m (<[pk := r]> (st m)) st)
    | vs => Err (IntegrityError vs)
    end
  else Err ValueError.

(** [Model.objects.create] with keyword arguments.  An argument is named
    after its column; the other spellings of Django ([pk], [id] and the
    [_id] attribute of a foreign key) are outside the model, which answers
    them like an unknown name. *)
Definition create (now : nat) (m : model) (kwargs : row) (st : db)
  : result (nat * db) :=
  if decide (map_Forall (λ k _, k ∈ field_names m) kwargs) then
    let pk := fresh (dom (st m)) in
    match write m pk (to_row now true m (init m kwargs)) st with
    | Ok st' => Ok (pk, st')
    | Err e => Err e
    end
  else Err TypeError.

(** [obj = Model.objects.get(pk=pk)], one assignment per entry of
    [assigns], then [obj.save()]. *)
Definition save (now : nat) (m : model) (pk : nat) (assigns : row) (st : db)
  : result db :=
  match st m !! pk with
  | None => Err DoesNotExist
  | Some old => write m pk (to_row now false m (assigns ∪ old)) st
  end.

(** *** Deletion *)

(** The primary keys of the rows of [m'] whose column [col] refers to
    [pk]. *)
Definition referrers (st : db) (m' : model) (col : string) (pk : nat)
  : list nat :=
  (map_to_list (filter (λ kr, kr.2 !! col = Some (VRef pk)) (st m'))).*1.

(** [Collector.collect]: the object, and recursively every object that
    refers to it through a CASCADE foreign key. *)
Fixpoint collect (fuel : nat) (st : db) (m : model) (pk : nat)
  : list (model * nat) :=
  match fuel with
  | O => []
  | S fuel =>
      (m, pk) ::
      (foreign_keys_to m CASCADE ≫= λ mc,
         referrers st mc.1 mc.2 pk ≫= collect fuel st mc.1)
  end.

(** Whether the SET_NULL column [f] of [r] refers to a collected object. *)
Definition nulled (doomed : list (model * nat)) (r : row) (f : field) : bool :=
  match fkind f, r !! fname f with
  | ForeignKey to SET_NULL, Some (VRef k) => bool_decide ((to, k) ∈ doomed)
  | _, _ => false
  end.

(** The field updates of the collector: an UPDATE of the referring column
    alone. *)
Definition set_null (doomed : list (model * nat)) (m' : model) (r : row)
  : row :=
  foldr (λ f acc, if nulled doomed r f then <[fname f := VNull]> acc else acc)
        r (fields m').

(** [obj.delete()]: collect, null out, delete. *)
Definition delete_obj (m : model) (pk : nat) (st : db) : result db :=
  match st m !! pk with
  | None => Err DoesNotExist
  | Some _ =>
      let doomed := collect (length all_models) st m pk in
      Ok (λ m', filter (λ kr, (m', kr.1) ∉ doomed)
                       (set_null doomed m' <$> st m'))
  end.

(** *** Reachable states *)

Inductive reachable : db → Prop :=
  | reach_empty : reachable empty_db
  | reach_create now m kwargs st pk st' :
      reachable st → create now m kwargs st = Ok (pk, st') → reachable st'
  | reach_save now m pk assigns st st' :
      reachable st → save now m pk assigns st = Ok st' → reachable st'
  | reach_delete m pk st st' :
      reachable st → delete_obj m pk st = Ok st' → reachable st'.

(** *** Field validation ([Model.clean_fields]) *)

Inductive validation_error : Set :=
  | invalid | invalid_choice | null_error | blank_error | max_length_error.

(** [Field.empty_values], as far as columns hold them. *)
Definition empty_value (v : value) : bool :=
  match v with
  | VNull => true
  | VStr s => bool_decide (s = "")
  | _ => false
  end.

(** A field with [auto_now] or [auto_now_add] is made non-editable and
    blank by its constructor. *)
Definition editable (f : field) : bool :=
  negb (bool_decide (auto_now ∈ fopts f)
        || bool_decide (auto_now_add ∈ fopts f)).

Definition blank_allowed (f : field) : bool := is_blank f || negb (editable f).

(** [Field.validate]: the choices, then null, then blank. *)
Definition validate (f : field) (v : value) : option validation_error :=
  if negb (editable f) then None
  else
    match declared_choices (fopts f), empty_value v with
    | Some cs, false =>
        if decide (v ∈ VStr <$> cs.*1) then None else Some invalid_choice
    | _, _ =>
        if bool_decide (v = VNull) && negb (nullable f) then Some null_error
        else if negb (blank_allowed f) && empty_value v then Some blank_error
        else None
    end.

(** Python's [len] of a [str]: the number of its characters.  A string is
    held here as its UTF-8 encoding, in which the bytes [10xxxxxx] continue
    a character and every other byte starts one. *)
Definition continuation_byte (a : Ascii.ascii) : bool :=
  match a with
  | Ascii.Ascii _ _ _ _ _ _ b6 b7 => b7 && negb b6
  end.

Fixpoint len (s : string) : nat :=
  match s with
  | EmptyString => 0
  | String a s' => (if continuation_byte a then 0 else 1) + len s'
  end.

(** [Field.run_validators], for the one validator a declaration of the
    schema adds by itself: the length bound of [max_length], which
    [MaxLengthValidator] compares with [len].  The validators particular to
    a column type (e-mail syntax, decimal digits, integer range) are not
    modelled. *)
Definition run_validators (f : field) (v : value) : option validation_error :=
  match v, declared_max_length (fopts f) with
  | VStr s, Some n =>
      if empty_value v then None
      else if decide (len s ≤ n)%nat then None
      else Some max_length_error
  | _, _ => None
  end.

(** [Field.clean]: convert, validate, run the validators. *)
Definition clean (f : field) (v : value) : option validation_error :=
  if negb (prep_ok (fkind f) v) then Some invalid
  else
    match validate f v with
    | Some e => Some e
    | None => run_validators f v
    end.

(** [Model.clean_fields]: the errors, by column name; a blank field holding
    an empty value is skipped. *)
Definition clean_fields (m : model) (inst : row)
  : list (string * validation_error) :=
  f ← fields m;
  let v := getattr inst (fname f) in
  if blank_allowed f && empty_value v then []
  else match clean f v with
       | Some e => [(fname f, e)]
       | None => []
       end.

(** ** Properties of states *)

(** No two rows of [t] agree on [cols] with all of them non-null. *)
Definition unique_on (t : table) (cols : list string) : Prop :=
  ∀ k1 k2 r1 r2,
    t !! k1 = Some r1 → t !! k2 = Some r2 →
    Forall (λ c, getattr r1 c ≠ VNull ∧ r1 !! c = r2 !! c) cols →
    k1 = k2.

(** The unique indexes a model declares: [unique=True] columns and the
    tuples of [unique_together]. *)
Definition declared_unique (m : model) (cols : list string) : Prop :=
  (∃ f, f ∈ fields m ∧ is_unique f = true ∧ cols = [fname f])
  ∨ cols ∈ unique_together m.

(** A value fit for its column: of the column's type, NULL only where
    allowed, and non-negative in a positive-integer column. *)
Definition column_ok (f : field) (v : value) : Prop :=
  prep_ok (fkind f) v = true
  ∧ (v = VNull → nullable f = true)
  ∧ (fkind f = PositiveIntegerField → ∀ z, v = VInt z → 0 ≤ z).

Definition row_ok (m : model) (r : row) : Prop :=
  ∀ f, f ∈ fields m → ∃ v, r !! fname f = Some v ∧ column_ok f v.

(** [cascades st x y]: the row [y] refers to the row [x] through a CASCADE
    foreign key, so that deleting [x] deletes [y]. *)
Inductive cascades (st : db) : model * nat → model * nat → Prop :=
  | cascades_intro m k m' k' f r :
      f ∈ fields m' → fkind f = ForeignKey m CASCADE →
      st m' !! k' = Some r → r !! fname f = Some (VRef k) →
      cascades st (m, k) (m', k').

(** The longest chain of CASCADE foreign keys that ends in a model. *)
Definition cascade_height (m : model) : nat :=
  match m with
  | Warehouse | Supplier => 2
  | Product | PurchaseOrder | GoodsReceipt | Sale => 1
  | _ => 0
  end.

(** Keyword arguments the constructor takes and whose values have the
    types of their columns: the row reaches the store. *)
Definition accepted (now : nat) (m : model) (kwargs : row) : Prop :=
  map_Forall (λ k _, k ∈ field_names m) kwargs
  ∧ prepared m (to_row now true m (init m kwargs)) = true.

(** Every foreign key of every stored row refers to a stored row. *)
Definition references_ok (st : db) : Prop :=
  ∀ m k r f to od j,
    st m !! k = Some r → f ∈ fields m → fkind f = ForeignKey to od →
    r !! fname f = Some (VRef j) → is_Some (st to !! j).

(** [Model._meta.get_field]. *)
Definition get_field (m : model) (n : string) : option field :=
  List.find (λ f, bool_decide (fname f = n)) (fields m).

(** The row stored under a key (the empty row when there is none). *)
Definition row_at (st : db) (m : model) (k : nat) : row :=
  match st m !! k with Some r => r | None => ∅ end.

Definition stored (st : db) (m : model) (k : nat) : bool :=
  match st m !! k with Some _ => true | None => false end.

(** Every foreign key of the schema: referring model, column, target,
    deletion policy, and whether the column is nullable. *)
Definition foreign_keys
  : list (model * string * model * on_delete_policy * bool) :=
  m ← all_models;
  f ← fields m;
  match fkind f with
  | ForeignKey to od => [(m, fname f, to, od, nullable f)]
  | _ => []
  end.

(** The positive-integer columns of the schema. *)
Definition positive_integer_columns : list (model * string) :=
  m ← all_models;
  f ← fields m;
  if decide (fkind f = PositiveIntegerField) then [(m, fname f)] else [].

Definition rows_ok (st : db) : Prop :=
  ∀ m k r, st m !! k = Some r → row_ok m r.

(** ** Sample states *)

Module Demo.
Definition state_of (r : result (nat * db)) : db :=
  match r with Ok (_, st) => st | Err _ => empty_db end.

(** One product, one warehouse, one batch of the product. *)
Definition s1 : db :=
  state_of (create 5 Product
              {[ "name" := VStr "aspirin"; "product_code" := VStr "A1" ]}
              empty_db).
Definition s2 : db :=
  state_of (create 6 Warehouse {[ "name" := VStr "main" ]} s1).
Definition s3 : db :=
  state_of (create 7 Batch
              {[ "product" := VRef 0; "batch_number" := VStr "L-1" ]} s2).

(** Stock of that batch, then stock of the same product without a
    batch. *)
Definition stock_of_batch : row :=
  {[ "warehouse" := VRef 0; "product" := VRef 0; "batch" := VRef 0;
     "quantity" := VInt 10 ]}.
Definition stock_without_batch : row :=
  {[ "warehouse" := VRef 0; "product" := VRef 0 ]}.
Definition s4 : db := state_of (create 8 Inventory stock_of_batch s3).
Definition s5 : db := state_of (create 9 Inventory stock_without_batch s4).
Definition s6 : db := state_of (create 10 Inventory stock_without_batch s5).

(** A supplier, for the purchase side. *)
Definition s7 : db :=
  state_of (create 11 Supplier {[ "name" := VStr "acme" ]} s6).

Definition key_of (r : result (nat * db)) : nat :=
  match r with Ok (k, _) => k | Err _ => 0%nat end.

Definition db_of (r : result db) : db :=
  match r with Ok st => st | Err _ => empty_db end.
End Demo.

(** ** String representations ([__str__]) *)

Section representations.
(** [str_date t] is [str(t.date())] and [str_datetime t] is [str(t)] for
    the date-time of tick [t]: the calendar is left to the caller. *)
Context (str_date : nat → string) (str_datetime : nat → string).

(** A value inside an f-string. Decimals and keys are not formatted by
    any method of the module. *)
Definition format_value (v : value) : option string :=
  match v with
  | VNull => Some "None"
  | VStr s => Some s
  | VInt z => Some (pretty z)
  | VBool b => Some (if b then "True" else "False")
  | VDate d => Some (str_date d)
  | VTime t => Some (str_datetime t)
  | VDec _ | VRef _ => None
  end.

(** [self.<col>] inside an f-string. *)
Definition attr (r : row) (col : string) : option string :=
  format_value (getattr r col).

(** [return self.<col>]: the method must return a string. *)
Definition str_attr (r : row) (col : string) : option string :=
  match getattr r col with VStr s => Some s | _ => None end.

(** [self.<col>.date()] inside an f-string. *)
Definition date_attr (r : row) (col : string) : option string :=
  match getattr r col with VTime t => Some (str_date t) | _ => None end.

(** [self.<col>] for a foreign key: the key and the row of the object
    referred to; nothing when the column is null or dangling. *)
Definition related (st : db) (to : model) (r : row) (col : string)
  : option (nat * row) :=
  match r !! col with
  | Some (VRef k) => r' ← st to !! k; Some (k, r')
  | _ => None
  end.

(** The [__str__] method of each class, on the row [r] stored under
    [pk]; [None] when the method raises. *)
Definition __str__ (st : db) (m : model) (pk : nat) (r : row)
  : option string :=
  match m with
  | User => str_attr r "username"
  | Product => str_attr r "name"
  | Batch =>
      p ← related st Product r "product";
      n ← attr p.2 "name";
      b ← attr r "batch_number";
      Some (n +:+ " | Партия: " +:+ b)
  | Warehouse => str_attr r "name"
  | Inventory =>
      w ← related st Warehouse r "warehouse";
      wn ← attr w.2 "name";
      p ← related st Product r "product";
      pn ← attr p.2 "name";
      q ← attr r "quantity";
      Some (wn +:+ " | " +:+ pn +:+ " | Остаток: " +:+ q)
  | Supplier => str_attr r "name"
  | PurchaseOrder =>
      d ← date_attr r "order_date";
      Some ("Заказ #" +:+ pretty pk +:+ " от " +:+ d)
  | PurchaseOrderDetail =>
      p ← related st Product r "product";
      pn ← attr p.2 "name";
      q ← attr r "quantity";
      Some ("Товар: " +:+ pn +:+ ", Кол-во: " +:+ q)
  | GoodsReceipt =>
      d ← date_attr r "receipt_date";
      Some ("Приёмка #" +:+ pretty pk +:+ " от " +:+ d)
  | GoodsReceiptDetail =>
      g ← related st GoodsReceipt r "goods_receipt";
      p ← related st Product r "product";
      pn ← attr p.2 "name";
      Some ("Приёмка #" +:+ pretty g.1 +:+ ": " +:+ pn)
  | Customer =>
      n ← attr r "name";
      s ← attr r "surname";
      Some (n +:+ " " +:+ s)
  | Sale =>
      d ← attr r "sale_date";
      Some ("Продажа #" +:+ pretty pk +:+ " от " +:+ d)
  | SaleDetail =>
      s ← related st Sale r "sale";
      p ← related st Product r "product";
      pn ← attr p.2 "name";
      Some ("Продажа #" +:+ pretty s.1 +:+ ": " +:+ pn)
  | WriteOff =>
      p ← related st Product r "product";
      pn ← attr p.2 "name";
      q ← attr r "quantity";
      Some ("Списание #" +:+ pretty pk +:+ ": " +:+ pn +:+ " - " +:+ q
            +:+ " шт.")
  end.
End representations.

(** ** More properties of states *)

(** The columns [pre_save] sets by itself, on insertion ([add]) or on
    update. *)
Definition stamped_columns (add : bool) : list (model * string) :=
  m ← all_models;
  f ← fields m;
  if stamps add f then [(m, fname f)] else [].

(** The text columns that validation judges by [blank] and [max_length]
    alone: the Char and Text columns without choices of the classes of the
    module, each with its [blank] flag and its [max_length]. *)
Definition text_columns : list (model * string * bool * option nat) :=
  m ← all_models;
  f ← (if time_stamped m then fields m else []);
  match fkind f, declared_choices (fopts f) with
  | (CharField | TextField), None =>
      [(m, fname f, is_blank f, declared_max_length (fopts f))]
  | _, _ => []
  end.

(** Stored rows have no other columns than those of their model. *)
Definition rows_exact (st : db) : Prop :=
  ∀ m k r c, st m !! k = Some r → c ∉ field_names m → r !! c = None.

(** ** A sample state with every kind of document *)

Module Sample.
Import Demo.

Definition t1 : db :=
  state_of (create 12 PurchaseOrder
              {[ "supplier" := VRef 0; "warehouse" := VRef 0 ]} s7).
Definition t2 : db :=
  state_of (create 13 PurchaseOrderDetail
              {[ "purchase_order" := VRef 0; "product" := VRef 0;
                 "quantity" := VInt 3; "price" := VDec 1250 ]} t1).
Definition t3 : db :=
  state_of (create 14 GoodsReceipt
              {[ "purchase_order" := VRef 0; "warehouse" := VRef 0 ]} t2).
Definition t4 : db :=
  state_of (create 15 GoodsReceiptDetail
              {[ "goods_receipt" := VRef 0; "product" := VRef 0;
                 "batch" := VRef 0; "quantity" := VInt 3 ]} t3).
Definition t5 : db :=
  state_of (create 16 Customer
              {[ "name" := VStr "Ivan"; "surname" := VStr "Petrov" ]} t4).
Definition t6 : db :=
  state_of (create 17 User {[ "username" := VStr "ann" ]} t5).
Definition t7 : db :=
  state_of (create 18 Sale
              {[ "warehouse" := VRef 0; "cashier" := VRef 0;
                 "customer" := VRef 0 ]} t6).
Definition t8 : db :=
  state_of (create 19 SaleDetail
              {[ "sale" := VRef 0; "product" := VRef 0; "batch" := VRef 0;
                 "quantity" := VInt 2; "unit_price" := VDec 1990 ]} t7).
Definition t9 : db :=
  state_of (create 20 WriteOff
              {[ "warehouse" := VRef 0; "product" := VRef 0;
                 "batch" := VRef 0; "quantity" := VInt 1;
                 "reason" := VStr "expired" ]} t8).

(** A second warehouse that received goods of the first one's order. *)
Definition t10 : db :=
  state_of (create 21 Warehouse {[ "name" := VStr "branch" ]} t9).
Definition full : db :=
  state_of (create 22 GoodsReceipt
              {[ "purchase_order" := VRef 0; "warehouse" := VRef 1 ]} t10).

(** Stock of one product in one warehouse, in two batches. *)
Definition u1 : db :=
  state_of (create 9 Batch
              {[ "product" := VRef 0; "batch_number" := VStr "L-2" ]} s4).
Definition two_batches : db :=
  state_of (create 10 Inventory
              {[ "warehouse" := VRef 0; "product" := VRef 0;
                 "batch" := VRef 1; "quantity" := VInt 4 ]} u1).
End Sample.

(** * Proofs *)

(** ** Rows *)

Lemma field_names_NoDup m : NoDup (field_names m).
Proof. destruct m; apply (bool_decide_unpack _); vm_compute; exact I. Qed.

Lemma fields_name_inj m f g :
  f ∈ fields m → g ∈ fields m → fname f = fname g → f = g.
Proof.
  intros Hf Hg Hn.
  apply list_elem_of_lookup in Hf as [i Hi], Hg as [j Hj].
  assert (i = j) as ->; [|congruence].
  eapply NoDup_lookup; [apply (field_names_NoDup m)| |];
    unfold field_names; rewrite list_lookup_fmap.
  - rewrite Hi. reflexivity.
  - rewrite Hj, Hn. reflexivity.
Qed.

Section per_field.
Context (g : field → value).

Lemma per_field_lookup m f :
  f ∈ fields m →
  (list_to_map ((λ f, (fname f, g f)) <$> fields m) : row) !! fname f
  = Some (g f).
Proof.
  intros Hf. apply elem_of_list_to_map_1.
  - rewrite <- list_fmap_compose. apply (field_names_NoDup m).
  - apply list_elem_of_fmap. eauto.
Qed.

Lemma per_field_lookup_None m n :
  n ∉ field_names m →
  (list_to_map ((λ f, (fname f, g f)) <$> fields m) : row) !! n = None.
Proof.
  intros Hn. apply not_elem_of_list_to_map_1.
  by rewrite <- list_fmap_compose.
Qed.
End per_field.

Lemma init_lookup m kwargs f :
  f ∈ fields m →
  init m kwargs !! fname f
  = Some (match kwargs !! fname f with Some v => v | None => get_default f end).
Proof.
  apply (per_field_lookup
           (λ f, match kwargs !! fname f with
                 | Some v => v | None => get_default f end) m f).
Qed.

Lemma to_row_lookup now add m inst f :
  f ∈ fields m →
  to_row now add m inst !! fname f = Some (pre_save now add f inst).
Proof. apply (per_field_lookup (λ f, pre_save now add f inst) m f). Qed.

Lemma to_row_lookup_None now add m inst n :
  n ∉ field_names m → to_row now add m inst !! n = None.
Proof. apply (per_field_lookup_None (λ f, pre_save now add f inst)). Qed.

Lemma to_row_getattr now add m inst f :
  f ∈ fields m →
  getattr (to_row now add m inst) (fname f) = pre_save now add f inst.
Proof. intros Hf. unfold getattr. by rewrite to_row_lookup. Qed.

(** ** Writes *)

Lemma write_Ok m pk r st st' :
  write m pk r st = Ok st' →
  prepared m r = true ∧ violations st m pk r = []
  ∧ st' = set_table m (<[pk := r]> (st m)) st.
Proof.
  unfold write. destruct (prepared m r); [|done].
  destruct (violations st m pk r); [|done].
  intros [= <-]. done.
Qed.

Lemma set_table_same m t st : set_table m t st m = t.
Proof. unfold set_table. by rewrite decide_True. Qed.

Lemma set_table_other m m' t st : m' ≠ m → set_table m t st m' = st m'.
Proof. intros. unfold set_table. by rewrite decide_False. Qed.

Lemma violations_field st m pk r f :
  violations st m pk r = [] → f ∈ fields m → field_violations st m pk r f = [].
Proof.
  unfold violations. intros [H _]%app_eq_nil Hf.
  destruct (field_violations st m pk r f) as [|v vs] eqn:E; [done|].
  assert (v ∈ fields m ≫= field_violations st m pk r) as Hv.
  { apply list_elem_of_bind. exists f. rewrite E. split; [left|done]. }
  rewrite H in Hv. by apply not_elem_of_nil in Hv.
Qed.

Lemma violations_together st m pk r cols :
  violations st m pk r = [] → cols ∈ unique_together m →
  unique_violation (delete pk (st m)) cols r = [].
Proof.
  unfold violations. intros [_ H]%app_eq_nil Hf.
  destruct (unique_violation _ cols r) as [|v vs] eqn:E; [done|].
  assert (v ∈ unique_together m ≫=
            λ cols, unique_violation (delete pk (st m)) cols r) as Hv.
  { apply list_elem_of_bind. exists cols. rewrite E. split; [left|done]. }
  rewrite H in Hv. by apply not_elem_of_nil in Hv.
Qed.

Lemma create_Ok now m kwargs st pk st' :
  create now m kwargs st = Ok (pk, st') →
  map_Forall (λ k _, k ∈ field_names m) kwargs
  ∧ pk = fresh (dom (st m))
  ∧ st m !! pk = None
  ∧ write m pk (to_row now true m (init m kwargs)) st = Ok st'.
Proof.
  unfold create. case_decide; [|done].
  destruct (write _ _ _ _) as [st''|] eqn:E; [|done].
  intros [= <- <-]. split_and!; try done.
  apply not_elem_of_dom, is_fresh.
Qed.

Lemma save_Ok now m pk assigns st st' :
  save now m pk assigns st = Ok st' →
  ∃ old, st m !! pk = Some old
         ∧ write m pk (to_row now false m (assigns ∪ old)) st = Ok st'.
Proof. unfold save. destruct (st m !! pk); [eauto|done]. Qed.

(** ** Deletion *)

Lemma set_null_lookup_nulled doomed m r c :
  (∃ f, f ∈ fields m ∧ fname f = c ∧ nulled doomed r f = true) →
  set_null doomed m r !! c = Some VNull.
Proof.
  unfold set_null. induction (fields m) as [|f fs IH]; simpl.
  - intros (f & Hf & _). inversion Hf.
  - intros (g & Hg & Hc & Hn). destruct (nulled doomed r f) eqn:E.
    + rewrite lookup_insert. case_decide; [done|]. apply IH.
      exists g. apply elem_of_cons in Hg as [->|]; [congruence|done].
    + apply IH.
      exists g. apply elem_of_cons in Hg as [->|]; [congruence|done].
Qed.

Lemma set_null_lookup_kept doomed m r c :
  (∀ f, f ∈ fields m → fname f = c → nulled doomed r f = false) →
  set_null doomed m r !! c = r !! c.
Proof.
  unfold set_null. induction (fields m) as [|f fs IH]; simpl; [done|].
  intros H. destruct (nulled doomed r f) eqn:E.
  - rewrite lookup_insert_ne.
    + apply IH. intros g Hg. apply H. by right.
    + intros Hc. rewrite (H f) in E; [done|left|done].
  - apply IH. intros g Hg. apply H. by right.
Qed.

Lemma set_null_lookup_cases doomed m r c :
  set_null doomed m r !! c = Some VNull ∨ set_null doomed m r !! c = r !! c.
Proof.
  unfold set_null. induction (fields m) as [|f fs IH]; simpl; [by right|].
  destruct (nulled doomed r f); [|done].
  rewrite lookup_insert. case_decide; [by left|done].
Qed.

Lemma delete_obj_Ok m pk st st' :
  delete_obj m pk st = Ok st' →
  is_Some (st m !! pk)
  ∧ st' = λ m', filter (λ kr, (m', kr.1) ∉ collect (length all_models) st m pk)
                  (set_null (collect (length all_models) st m pk) m' <$> st m').
Proof.
  unfold delete_obj. destruct (st m !! pk) eqn:E; [|done].
  intros [= <-]. eauto.
Qed.

Lemma delete_obj_lookup m pk st st' m' k r' :
  delete_obj m pk st = Ok st' →
  (st' m' !! k = Some r') ↔
  (((m', k) ∉ collect (length all_models) st m pk)
   ∧ ∃ r, st m' !! k = Some r
          ∧ r' = set_null (collect (length all_models) st m pk) m' r).
Proof.
  intros [_ ->]%delete_obj_Ok.
  rewrite map_lookup_filter_Some, lookup_fmap, fmap_Some. simpl.
  split.
  - intros [(r & ? & ?) ?]. eauto.
  - intros [? (r & ? & ?)]. eauto.
Qed.

(** ** Facts read off the schema *)

Lemma schema_forall (P : model → field → bool) :
  forallb (λ m, forallb (P m) (fields m)) all_models = true →
  ∀ m f, f ∈ fields m → P m f = true.
Proof.
  intros H m f Hf.
  rewrite forallb_forall in H. specialize (H m).
  rewrite forallb_forall in H. apply H.
  - destruct m; vm_compute; tauto.
  - by apply list_elem_of_In.
Qed.

Lemma set_null_nullable m f to :
  f ∈ fields m → fkind f = ForeignKey to SET_NULL → nullable f = true.
Proof.
  intros Hf Hk.
  pose proof (schema_forall
    (λ _ f, match fkind f with
            | ForeignKey _ SET_NULL => nullable f
            | _ => true
            end) eq_refl m f Hf) as H.
  simpl in H. by rewrite Hk in H.
Qed.

(** ** Rows stay well-formed *)

Lemma column_ok_null f : nullable f = true → column_ok f VNull.
Proof. intros. split_and!; done. Qed.

Lemma write_row_ok st m pk r :
  prepared m r = true → violations st m pk r = [] →
  (∀ f, f ∈ fields m → is_Some (r !! fname f)) →
  row_ok m r.
Proof.
  intros Hp Hv Hr f Hf. destruct (Hr f Hf) as [v Hl]. exists v. split; [done|].
  assert (getattr r (fname f) = v) as Hg by (unfold getattr; by rewrite Hl).
  unfold prepared in Hp. rewrite forallb_forall in Hp.
  specialize (Hp f (proj1 (list_elem_of_In _ _) Hf)). rewrite Hg in Hp.
  pose proof (violations_field _ _ _ _ _ Hv Hf) as Hfv.
  unfold field_violations in Hfv. rewrite Hg in Hfv.
  apply app_eq_nil in Hfv as [Hnn [Hck _]%app_eq_nil].
  split_and!; [done| |].
  - intros ->. destruct (nullable f); [done|]. exfalso. revert Hnn. simpl.
    rewrite ?bool_decide_eq_true_2 by done. done.
  - intros Hk z ->. rewrite Hk in Hck. by case_decide.
Qed.

Lemma to_row_ok now add st m pk inst :
  prepared m (to_row now add m inst) = true →
  violations st m pk (to_row now add m inst) = [] →
  row_ok m (to_row now add m inst).
Proof.
  intros ??. eapply write_row_ok; [done..|].
  intros f Hf. rewrite to_row_lookup; eauto.
Qed.

Lemma set_null_row_ok doomed m r : row_ok m r → row_ok m (set_null doomed m r).
Proof.
  intros Hr f Hf. destruct (Hr f Hf) as (v & Hl & Hv).
  destruct (nulled doomed r f) eqn:E.
  - exists VNull. split.
    + apply set_null_lookup_nulled. eauto.
    + apply column_ok_null. unfold nulled in E.
      destruct (fkind f) as [| | | | | | | |to []] eqn:Hk; try done.
      by eapply set_null_nullable.
  - exists v. split; [|done]. rewrite set_null_lookup_kept; [done|].
    intros g Hg Hn. by rewrite (fields_name_inj m g f Hg Hf Hn).
Qed.

Lemma write_rows_ok now add st m pk inst st' :
  rows_ok st → write m pk (to_row now add m inst) st = Ok st' → rows_ok st'.
Proof.
  intros Hst (Hp & Hv & ->)%write_Ok m' k r.
  destruct (decide (m' = m)) as [->|Hm].
  - rewrite set_table_same, lookup_insert. case_decide.
    + intros [= <-]. by eapply to_row_ok.
    + apply Hst.
  - rewrite set_table_other by done. apply Hst.
Qed.

Lemma reachable_rows_ok st : reachable st → rows_ok st.
Proof.
  induction 1 as [|now m kwargs st pk st' _ IH Hc
                  |now m pk assigns st st' _ IH Hs
                  |m pk st st' _ IH Hd].
  - intros m k r. unfold empty_db. by rewrite lookup_empty.
  - apply create_Ok in Hc as (_ & _ & _ & Hw). by eapply write_rows_ok.
  - apply save_Ok in Hs as (old & _ & Hw). by eapply write_rows_ok.
  - intros m' k r' Hl.
    apply (delete_obj_lookup _ _ _ _ _ _ _ Hd) in Hl as (_ & r & Hr & ->).
    apply set_null_row_ok. by eapply IH.
Qed.

(** ** Unique indexes *)

Lemma unique_violation_nil t cols r :
  unique_violation t cols r = [] →
  Forall (λ c, getattr r c ≠ VNull) cols → ¬ taken t cols r.
Proof. unfold unique_violation. case_decide; [done|]. tauto. Qed.

Lemma violations_declared_unique st m pk r cols :
  violations st m pk r = [] → declared_unique m cols →
  unique_violation (delete pk (st m)) cols r = [].
Proof.
  intros Hv [(f & Hf & Hu & ->)|Hc].
  - pose proof (violations_field _ _ _ _ _ Hv Hf) as Hfv.
    unfold field_violations in Hfv. rewrite Hu in Hfv.
    by apply app_eq_nil in Hfv as [_ [_ ?]%app_eq_nil].
  - by eapply violations_together.
Qed.

Lemma getattr_agree (r1 r2 : row) c :
  r1 !! c = r2 !! c → getattr r1 c = getattr r2 c.
Proof. unfold getattr. by intros ->. Qed.

Lemma write_unique_on st m pk r st' cols :
  write m pk r st = Ok st' → declared_unique m cols →
  unique_on (st m) cols → unique_on (st' m) cols.
Proof.
  intros (_ & Hv & ->)%write_Ok Hd Hu k1 k2 r1 r2.
  rewrite set_table_same.
  pose proof (violations_declared_unique _ _ _ _ _ Hv Hd) as Hnil.
  rewrite !lookup_insert. repeat case_decide; subst.
  - done.
  - intros [= <-] H2 Hall. exfalso.
    eapply (unique_violation_nil _ _ _ Hnil).
    + eapply Forall_impl; [exact Hall|]. by intros c [? _].
    + apply map_Exists_lookup. exists k2, r2. split.
      * by rewrite lookup_delete_ne.
      * eapply Forall_impl; [exact Hall|]. by intros c [_ ?].
  - intros H1 [= <-] Hall. exfalso.
    eapply (unique_violation_nil _ _ _ Hnil).
    + eapply Forall_impl; [exact Hall|]. intros c [? E].
      by rewrite <- (getattr_agree _ _ _ E).
    + apply map_Exists_lookup. exists k1, r1. split.
      * by rewrite lookup_delete_ne.
      * eapply Forall_impl; [exact Hall|]. by intros c [_ ?].
  - apply Hu.
Qed.

Lemma set_null_unique_on doomed m (t : table) cols :
  unique_on t cols →
  unique_on (filter (λ kr, (m, kr.1) ∉ doomed) (set_null doomed m <$> t)) cols.
Proof.
  intros Hu k1 k2 r1' r2'.
  rewrite !map_lookup_filter_Some, !lookup_fmap, !fmap_Some.
  intros [(r1 & H1 & ->) _] [(r2 & H2 & ->) _] Hall.
  apply (Hu k1 k2 r1 r2 H1 H2).
  eapply Forall_impl; [exact Hall|]. intros c [Hn Ha]. simpl in *.
  assert (∀ r, getattr (set_null doomed m r) c ≠ VNull →
               set_null doomed m r !! c = r !! c) as Hkeep.
  { intros r Hr. destruct (set_null_lookup_cases doomed m r c) as [E|E]; [|done].
    unfold getattr in Hr. by rewrite E in Hr. }
  pose proof (Hkeep r1 Hn) as E1.
  assert (getattr (set_null doomed m r2) c ≠ VNull) as Hn2
    by (by rewrite <- (getattr_agree _ _ _ Ha)).
  pose proof (Hkeep r2 Hn2) as E2.
  split.
  - by rewrite <- (getattr_agree _ _ _ E1).
  - congruence.
Qed.

Lemma reachable_unique_on st m cols :
  reachable st → declared_unique m cols → unique_on (st m) cols.
Proof.
  intros Hst Hd.
  induction Hst as [|now m0 kwargs st pk st' _ IH Hc
                    |now m0 pk assigns st st' _ IH Hs
                    |m0 pk st st' _ IH Hdel].
  - intros k1 k2 r1 r2. unfold empty_db. by rewrite lookup_empty.
  - apply create_Ok in Hc as (_ & _ & _ & Hw).
    destruct (decide (m = m0)) as [->|Hm]; [by eapply write_unique_on|].
    apply write_Ok in Hw as (_ & _ & ->). by rewrite set_table_other.
  - apply save_Ok in Hs as (old & _ & Hw).
    destruct (decide (m = m0)) as [->|Hm]; [by eapply write_unique_on|].
    apply write_Ok in Hw as (_ & _ & ->). by rewrite set_table_other.
  - apply delete_obj_Ok in Hdel as [_ ->]. by apply set_null_unique_on.
Qed.

(** ** The collector *)

Lemma elem_of_referrers st m' col pk k :
  k ∈ referrers st m' col pk ↔
  ∃ r, st m' !! k = Some r ∧ r !! col = Some (VRef pk).
Proof.
  unfold referrers. rewrite list_elem_of_fmap. split.
  - intros ([k' r] & -> & H). apply elem_of_map_to_list in H.
    apply map_lookup_filter_Some in H as [? ?]. eauto.
  - intros (r & H1 & H2). exists (k, r). split; [done|].
    apply elem_of_map_to_list, map_lookup_filter_Some. done.
Qed.

Lemma elem_of_all_models m : m ∈ all_models.
Proof. apply list_elem_of_In. destruct m; vm_compute; tauto. Qed.

Lemma elem_of_foreign_keys_to target od m c :
  (m, c) ∈ foreign_keys_to target od ↔
  ∃ f, f ∈ fields m ∧ fname f = c ∧ fkind f = ForeignKey target od.
Proof.
  unfold foreign_keys_to. rewrite list_elem_of_bind. split.
  - intros (m0 & H & _). apply list_elem_of_bind in H as (f & H & Hf).
    case_decide; [|by apply elem_of_nil in H].
    apply list_elem_of_singleton in H as [= -> ->]. eauto.
  - intros (f & Hf & <- & Hk). exists m. split; [|apply elem_of_all_models].
    apply list_elem_of_bind. exists f. split; [|done].
    rewrite decide_True by done. by left.
Qed.

Lemma collect_head n st m k : (m, k) ∈ collect (S n) st m k.
Proof. simpl. by left. Qed.

Lemma collect_step n st m k m' k' x :
  cascades st (m, k) (m', k') → x ∈ collect n st m' k' →
  x ∈ collect (S n) st m k.
Proof.
  intros Hxy Hx. inversion Hxy as [? ? ? ? f r Hf Hk Hr Hc]; subst.
  simpl. right. apply list_elem_of_bind. exists (m', fname f). split.
  - simpl. apply list_elem_of_bind. exists k'. split; [done|].
    apply elem_of_referrers. eauto.
  - apply elem_of_foreign_keys_to. eauto.
Qed.

Lemma collect_sound n st m k x :
  x ∈ collect n st m k → rtc (cascades st) (m, k) x.
Proof.
  revert m k. induction n as [|n IH]; simpl; intros m k.
  - by intros ?%elem_of_nil.
  - intros [->|H]%elem_of_cons; [done|].
    apply list_elem_of_bind in H as ([m' c] & H & Hfk). simpl in H.
    apply list_elem_of_bind in H as (k' & Hx & Hk').
    apply elem_of_foreign_keys_to in Hfk as (f & Hf & <- & Hkind).
    apply elem_of_referrers in Hk' as (r & Hr & Hc).
    eapply rtc_l; [|by apply IH]. by econstructor.
Qed.

Lemma cascades_height st x y :
  cascades st x y → (cascade_height y.1 < cascade_height x.1)%nat.
Proof.
  intros Hxy. inversion Hxy as [m k m' k' f r Hf Hk _ _]; subst. simpl.
  pose proof (schema_forall
    (λ m' f, match fkind f with
             | ForeignKey m CASCADE =>
                 bool_decide (cascade_height m' < cascade_height m)%nat
             | _ => true
             end) eq_refl m' f Hf) as Hs.
  simpl in Hs. rewrite Hk in Hs. by apply bool_decide_eq_true in Hs.
Qed.

Lemma collect_complete n st m k x :
  rtc (cascades st) (m, k) x → (cascade_height m < n)%nat →
  x ∈ collect n st m k.
Proof.
  intros Hrtc. revert n.
  remember (m, k) as y eqn:Hy. revert m k Hy.
  induction Hrtc as [y|y [m1 k1] z Hstep _ IH]; intros m k -> n Hn.
  - destruct n; [lia|]. apply collect_head.
  - destruct n; [lia|]. eapply collect_step; [done|].
    apply IH; [done|]. apply cascades_height in Hstep. simpl in Hstep. lia.
Qed.

Lemma cascade_height_bound m : (cascade_height m < length all_models)%nat.
Proof. destruct m; vm_compute; lia. Qed.

(** The fuel of [delete_obj] is enough: the collected objects are exactly
    those a chain of CASCADE references links to the deleted one. *)
Lemma elem_of_collect st m k x :
  x ∈ collect (length all_models) st m k ↔ rtc (cascades st) (m, k) x.
Proof.
  split; [apply collect_sound|].
  intros. apply collect_complete; [done|apply cascade_height_bound].
Qed.

Lemma rtc_cascades_height st x y :
  rtc (cascades st) x y →
  x = y ∨ (cascade_height y.1 < cascade_height x.1)%nat.
Proof.
  induction 1 as [|x y z Hxy _ IH]; [by left|right].
  apply cascades_height in Hxy. destruct IH as [<-|]; lia.
Qed.

(** The collected set is closed under CASCADE referrers. *)
Lemma collect_closed st m k x y :
  x ∈ collect (length all_models) st m k → cascades st x y →
  y ∈ collect (length all_models) st m k.
Proof.
  rewrite !elem_of_collect. intros Hx Hxy.
  eapply rtc_r; done.
Qed.

(** ** What a deletion does to a row *)

Section deletion.
Context (m : model) (pk : nat) (st st' : db).
Hypothesis Hdel : delete_obj m pk st = Ok st'.

Let doomed := collect (length all_models) st m pk.

Lemma delete_doomed_gone m' k : (m', k) ∈ doomed → st' m' !! k = None.
Proof.
  intros Hin. destruct (st' m' !! k) as [r'|] eqn:E; [|done].
  apply (delete_obj_lookup _ _ _ _ _ _ _ Hdel) in E as [Hn _]. done.
Qed.

Lemma delete_target_gone : st' m !! pk = None.
Proof. apply delete_doomed_gone, collect_head. Qed.

Lemma delete_survivor m' k r :
  st m' !! k = Some r → (m', k) ∉ doomed →
  st' m' !! k = Some (set_null doomed m' r).
Proof.
  intros Hr Hn. apply (delete_obj_lookup _ _ _ _ _ _ _ Hdel). eauto.
Qed.

(** A row that refers to a collected object through a CASCADE key is
    deleted with it. *)
Lemma delete_cascade_row m0 k0 m' f k r :
  (m0, k0) ∈ doomed →
  f ∈ fields m' → fkind f = ForeignKey m0 CASCADE →
  st m' !! k = Some r → r !! fname f = Some (VRef k0) →
  st' m' !! k = None.
Proof.
  intros Hin Hf Hk Hr Hc. apply delete_doomed_gone.
  eapply collect_closed; [exact Hin|]. by econstructor.
Qed.

(** No surviving row refers to a collected object. *)
Lemma delete_no_reference m0 k0 m' f od k r' :
  (m0, k0) ∈ doomed →
  f ∈ fields m' → fkind f = ForeignKey m0 od →
  st' m' !! k = Some r' → r' !! fname f ≠ Some (VRef k0).
Proof.
  intros Hin Hf Hk Hr' Hc.
  apply (delete_obj_lookup _ _ _ _ _ _ _ Hdel) in Hr' as (Hn & r & Hr & ->).
  fold doomed in Hn, Hc.
  destruct (set_null_lookup_cases doomed m' r (fname f)) as [E|E];
    rewrite E in Hc; [done|].
  destruct od.
  - apply Hn. eapply collect_closed; [exact Hin|]. by econstructor.
  - assert (nulled doomed r f = true) as Hnull.
    { unfold nulled. rewrite Hk, Hc. by apply bool_decide_eq_true. }
    rewrite set_null_lookup_nulled in E by eauto. congruence.
Qed.

(** A surviving row keeps every column the collector did not null. *)
Lemma delete_row_kept m' k r :
  st m' !! k = Some r → (m', k) ∉ doomed →
  (∀ g, g ∈ fields m' → nulled doomed r g = false) →
  st' m' !! k = Some r.
Proof.
  intros Hr Hn Hg. rewrite (delete_survivor _ _ _ Hr Hn). f_equal.
  apply map_eq. intros c. apply set_null_lookup_kept. eauto.
Qed.

Lemma doomed_height x :
  x ∈ doomed → x = (m, pk) ∨ (cascade_height x.1 < cascade_height m)%nat.
Proof.
  intros [<-|?]%elem_of_collect%rtc_cascades_height; [by left|by right].
Qed.

(** A row that refers to the deleted object through a SET_NULL key
    survives, with that one column nulled. *)
Lemma delete_set_null_row m' f k r :
  f ∈ fields m' → fkind f = ForeignKey m SET_NULL →
  st m' !! k = Some r → r !! fname f = Some (VRef pk) →
  st' m' !! k = Some (<[fname f := VNull]> r).
Proof.
  intros Hf Hk Hr Hc.
  pose proof (schema_forall
    (λ m' f,
       match fkind f with
       | ForeignKey m SET_NULL =>
           bool_decide (m' ≠ m
                        ∧ ¬ (cascade_height m' < cascade_height m)%nat)
           && forallb (λ g,
                match fkind g with
                | ForeignKey to SET_NULL =>
                    bool_decide
                      (fname g = fname f
                       ∨ (to ≠ m
                          ∧ ¬ (cascade_height to < cascade_height m)%nat))
                | _ => true
                end) (fields m')
       | _ => true
       end) eq_refl m' f Hf) as Hs.
  simpl in Hs. rewrite Hk in Hs.
  apply andb_true_iff in Hs as [[Hm Hh]%bool_decide_eq_true Hothers].
  rewrite forallb_forall in Hothers.
  assert ((m', k) ∉ doomed) as Hn.
  { intros [[= ? ?]|Hlt]%doomed_height; [done|]. simpl in Hlt. lia. }
  rewrite (delete_survivor _ _ _ Hr Hn). f_equal.
  apply map_eq. intros c. destruct (decide (c = fname f)) as [->|Hne].
  - rewrite lookup_insert_eq. apply set_null_lookup_nulled. exists f.
    split_and!; [done..|]. unfold nulled. rewrite Hk, Hc.
    apply bool_decide_eq_true, collect_head.
  - rewrite lookup_insert_ne by done. apply set_null_lookup_kept.
    intros g Hg Hgc. unfold nulled.
    destruct (fkind g) as [| | | | | | | |to []] eqn:Hgk; try done.
    destruct (r !! fname g) as [[]|]; try done.
    apply bool_decide_eq_false. intros Hin.
    specialize (Hothers g (proj1 (list_elem_of_In _ _) Hg)).
    rewrite Hgk in Hothers.
    apply bool_decide_eq_true in Hothers as [?|[Hto Hth]]; [congruence|].
    apply doomed_height in Hin as [[= ? ?]|Hlt]; [done|]. simpl in Hlt. lia.
Qed.
End deletion.

(** ** Referential integrity *)

Lemma write_references_ok st m pk r st' :
  references_ok st → write m pk r st = Ok st' → references_ok st'.
Proof.
  intros Hst (_ & Hv & ->)%write_Ok m' k r' f to od j Hr' Hf Hk Hc.
  assert (is_Some (st to !! j)) as [x Hx].
  { destruct (decide (m' = m)) as [->|Hm].
    - rewrite set_table_same, lookup_insert in Hr'. case_decide.
      + injection Hr' as <-.
        pose proof (violations_field _ _ _ _ _ Hv Hf) as Hfv.
        unfold field_violations, getattr in Hfv. rewrite Hk, Hc in Hfv.
        apply app_eq_nil in Hfv as [_ [Hfk _]%app_eq_nil].
        destruct (st to !! j); [eauto|done].
      + by eapply Hst.
    - rewrite set_table_other in Hr' by done. by eapply Hst. }
  destruct (decide (to = m)) as [->|Hto].
  - rewrite set_table_same, lookup_insert. case_decide; eauto.
  - rewrite set_table_other by done. eauto.
Qed.

Lemma delete_references_ok m pk st st' :
  references_ok st → delete_obj m pk st = Ok st' → references_ok st'.
Proof.
  intros Hst Hdel m' k r' f to od j Hr' Hf Hk Hc.
  destruct (decide ((to, j) ∈ collect (length all_models) st m pk)) as [Hin|Hn].
  { by destruct (delete_no_reference _ _ _ _ Hdel _ _ _ _ _ _ _ Hin Hf Hk Hr'). }
  apply (delete_obj_lookup _ _ _ _ _ _ _ Hdel) in Hr' as (_ & r & Hr & ->).
  destruct (set_null_lookup_cases
              (collect (length all_models) st m pk) m' r (fname f)) as [E|E];
    rewrite E in Hc; [done|].
  destruct (Hst _ _ _ _ _ _ _ Hr Hf Hk Hc) as [x Hx].
  erewrite delete_survivor; eauto.
Qed.

Lemma reachable_references_ok st : reachable st → references_ok st.
Proof.
  induction 1 as [|now m kwargs st pk st' _ IH Hc
                  |now m pk assigns st st' _ IH Hs
                  |m pk st st' _ IH Hd].
  - intros m k r ????. unfold empty_db. by rewrite lookup_empty.
  - apply create_Ok in Hc as (_ & _ & _ & Hw). by eapply write_references_ok.
  - apply save_Ok in Hs as (old & _ & Hw). by eapply write_references_ok.
  - by eapply delete_references_ok.
Qed.

(** ** Rejected writes *)

Lemma write_violation st m pk r v :
  prepared m r = true → v ∈ violations st m pk r →
  ∃ vs, write m pk r st = Err (IntegrityError vs) ∧ v ∈ vs.
Proof.
  intros Hp Hv. unfold write. rewrite Hp.
  destruct (violations st m pk r) as [|v0 vs] eqn:E.
  - by apply elem_of_nil in Hv.
  - eauto.
Qed.

Lemma write_violation_Err st m pk r v :
  v ∈ violations st m pk r → ∃ e, write m pk r st = Err e.
Proof.
  intros Hv. destruct (prepared m r) eqn:Hp.
  - destruct (write_violation _ _ _ _ _ Hp Hv) as (vs & -> & _). eauto.
  - unfold write. rewrite Hp. eauto.
Qed.

Lemma create_violation now st m kwargs v :
  v ∈ violations st m (fresh (dom (st m))) (to_row now true m (init m kwargs)) →
  (∃ e, create now m kwargs st = Err e)
  ∧ (accepted now m kwargs →
     ∃ vs, create now m kwargs st = Err (IntegrityError vs) ∧ v ∈ vs).
Proof.
  intros Hv. split.
  - unfold create. case_decide; [|eauto].
    destruct (write_violation_Err _ _ _ _ _ Hv) as [e ->]. eauto.
  - intros [Hk Hp]. unfold create. rewrite decide_True by done.
    destruct (write_violation _ _ _ _ _ Hp Hv) as (vs & -> & ?). eauto.
Qed.

Lemma field_violation_in st m pk r f v :
  f ∈ fields m → v ∈ field_violations st m pk r f → v ∈ violations st m pk r.
Proof.
  intros Hf Hv. unfold violations. apply elem_of_app. left.
  apply list_elem_of_bind. eauto.
Qed.

Lemma unique_violation_in (t : table) cols r k r' :
  t !! k = Some r' →
  Forall (λ c, getattr r c ≠ VNull ∧ r' !! c = r !! c) cols →
  UniqueViolation cols ∈ unique_violation t cols r.
Proof.
  intros Hk Hall. unfold unique_violation. rewrite decide_True; [by left|].
  split.
  - eapply Forall_impl; [exact Hall|]. by intros c [? _].
  - apply map_Exists_lookup. exists k, r'. split; [done|].
    eapply Forall_impl; [exact Hall|]. by intros c [_ ?].
Qed.

Lemma declared_unique_violation st m pk r cols k r' :
  declared_unique m cols →
  st m !! k = Some r' → k ≠ pk →
  Forall (λ c, getattr r c ≠ VNull ∧ r' !! c = r !! c) cols →
  UniqueViolation cols ∈ violations st m pk r.
Proof.
  intros [(f & Hf & Hu & ->)|Hc] Hk Hne Hall.
  - eapply field_violation_in; [done|]. unfold field_violations.
    rewrite Hu, !elem_of_app. right. right.
    eapply unique_violation_in; [|done]. by rewrite lookup_delete_ne.
  - unfold violations. apply elem_of_app. right.
    apply list_elem_of_bind. exists cols. split; [|done].
    eapply unique_violation_in; [|done]. by rewrite lookup_delete_ne.
Qed.

Lemma fresh_ne (t : table) k r : t !! k = Some r → k ≠ fresh (dom t).
Proof.
  intros Hk ->. apply (is_fresh (dom t)). apply elem_of_dom. eauto.
Qed.


Lemma get_field_Some m n f :
  get_field m n = Some f → f ∈ fields m ∧ fname f = n.
Proof.
  unfold get_field. intros [Hin Hn%bool_decide_eq_true]%find_some.
  split; [by apply list_elem_of_In|done].
Qed.

(** [the_field m n as f Hf]: the declaration [f] of column [n] of [m], with
    [Hf : f ∈ fields m]. *)
Tactic Notation "the_field" constr(m) constr(n) "as" ident(f) ident(Hf) :=
  let o := eval vm_compute in (get_field m n) in
  lazymatch o with
  | Some ?d =>
      pose (f := d);
      assert (f ∈ fields m) as Hf
        by (apply (get_field_Some m n f); vm_compute; reflexivity)
  end.

Lemma to_row_init_lookup now m kwargs f :
  f ∈ fields m → stamps true f = false →
  to_row now true m (init m kwargs) !! fname f = init m kwargs !! fname f.
Proof.
  intros Hf Hs. rewrite to_row_lookup, init_lookup by done.
  unfold pre_save, getattr. by rewrite Hs, init_lookup.
Qed.

Lemma create_duplicate now st m kwargs cols k r' :
  declared_unique m cols →
  st m !! k = Some r' →
  Forall (λ c, (∃ f, f ∈ fields m ∧ fname f = c ∧ stamps true f = false)
               ∧ init m kwargs !! c ≠ Some VNull
               ∧ r' !! c = init m kwargs !! c) cols →
  (∃ e, create now m kwargs st = Err e)
  ∧ (accepted now m kwargs →
     ∃ vs, create now m kwargs st = Err (IntegrityError vs)
           ∧ UniqueViolation cols ∈ vs).
Proof.
  intros Hd Hk Hall. apply create_violation.
  eapply declared_unique_violation; [done|done|by eapply fresh_ne|].
  eapply Forall_impl; [exact Hall|].
  intros c ((f & Hf & <- & Hs) & Hn & Ha). simpl.
  rewrite to_row_init_lookup by done. split; [|done].
  unfold getattr. rewrite to_row_init_lookup by done.
  rewrite init_lookup in * by done.
  intros E. apply Hn. by rewrite E.
Qed.

Lemma row_at_stored st m k :
  stored st m k = true → st m !! k = Some (row_at st m k).
Proof. unfold stored, row_at. by destruct (st m !! k). Qed.

Lemma not_nullable_not_null m r f :
  row_ok m r → f ∈ fields m → nullable f = false →
  getattr r (fname f) ≠ VNull.
Proof.
  intros Hr Hf Hn. destruct (Hr f Hf) as (v & Hl & _ & Hv & _).
  unfold getattr. rewrite Hl. intros ->. by rewrite Hv in Hn.
Qed.


(** Splits [Hf : f ∈ fields m], for a given [m], into one goal per
    column. *)
Ltac each_field Hf :=
  apply list_elem_of_In in Hf; vm_compute in Hf;
  repeat (destruct Hf as [<-|Hf]); [..|destruct Hf].

(** Evaluates the column reads and the declaration lookups of a goal on a
    given row. *)
Ltac eval_columns :=
  cbn [fname fkind fopts];
  repeat match goal with
    | |- context [getattr ?r ?c] =>
        let v := eval vm_compute in (getattr r c) in
        change (getattr r c) with v
    | |- context [nullable ?f] =>
        let v := eval vm_compute in (nullable f) in
        change (nullable f) with v
    | |- context [is_unique ?f] =>
        let v := eval vm_compute in (is_unique f) in
        change (is_unique f) with v
    end.

Lemma product_code_declared : declared_unique Product ["product_code"].
Proof.
  the_field Product "product_code" as f Hf.
  left. exists f. split_and!; done.
Qed.

(** C1.  A Product whose [product_code] is already stored is refused with
    a violation of the unique index on [product_code]; and in every
    reachable state no two Products carry the same [product_code]. *)
Theorem product_code_unique :
  (∀ st now kwargs k r c,
     st Product !! k = Some r →
     r !! "product_code" = Some (VStr c) →
     init Product kwargs !! "product_code" = Some (VStr c) →
     (∃ e, create now Product kwargs st = Err e)
     ∧ (accepted now Product kwargs →
        ∃ vs, create now Product kwargs st = Err (IntegrityError vs)
              ∧ UniqueViolation ["product_code"] ∈ vs))
  ∧ (∀ st, reachable st →
     ∀ k1 k2 r1 r2,
       st Product !! k1 = Some r1 → st Product !! k2 = Some r2 →
       r1 !! "product_code" = r2 !! "product_code" → k1 = k2).
Proof.
  split.
  - intros st now kwargs k r c Hk Hr Hi.
    the_field Product "product_code" as f Hf.
    eapply create_duplicate; [apply product_code_declared|exact Hk|].
    constructor; [|constructor]. split_and!.
    + exists f. split_and!; done.
    + by rewrite Hi.
    + by rewrite Hr, Hi.
  - intros st Hst k1 k2 r1 r2 H1 H2 Heq.
    eapply (reachable_unique_on st Product _ Hst product_code_declared);
      [exact H1|exact H2|].
    the_field Product "product_code" as f Hf.
    constructor; [|constructor]. split; [|done].
    apply (not_nullable_not_null Product r1 f);
      [by eapply reachable_rows_ok|done..].
Qed.

Lemma product_code_unique_witness :
  ∃ vs, create 6 Product {[ "product_code" := VStr "A1" ]} Demo.s1
        = Err (IntegrityError vs)
        ∧ UniqueViolation ["product_code"] ∈ vs.
Proof.
  eapply (proj1 product_code_unique Demo.s1 6%nat _ 0%nat
            (row_at Demo.s1 Product 0) "A1").
  - apply row_at_stored. vm_compute. reflexivity.
  - vm_compute. reflexivity.
  - vm_compute. reflexivity.
  - split.
    + apply (bool_decide_unpack _). vm_compute. exact I.
    + vm_compute. reflexivity.
Defined.

(** ** Accepted writes *)

Lemma violations_nil_intro st m pk r :
  (∀ f, f ∈ fields m → field_violations st m pk r f = []) →
  (∀ cols, cols ∈ unique_together m →
           unique_violation (delete pk (st m)) cols r = []) →
  violations st m pk r = [].
Proof.
  intros Hf Hc. unfold violations. apply app_nil. split.
  - apply elem_of_nil_inv. intros v (f & Hv & Hin)%list_elem_of_bind.
    rewrite (Hf f Hin) in Hv. by apply elem_of_nil in Hv.
  - apply elem_of_nil_inv. intros v (cols & Hv & Hin)%list_elem_of_bind.
    rewrite (Hc cols Hin) in Hv. by apply elem_of_nil in Hv.
Qed.

Lemma unique_violation_null t cols r c :
  c ∈ cols → getattr r c = VNull → unique_violation t cols r = [].
Proof.
  intros Hc Hn. unfold unique_violation. rewrite decide_False; [done|].
  intros [Hall _]. rewrite Forall_forall in Hall. by apply (Hall c).
Qed.

Lemma state_of_reachable now m kwargs st :
  reachable st → is_ok (create now m kwargs st) = true →
  reachable (Demo.state_of (create now m kwargs st)).
Proof.
  intros Hst E. destruct (create now m kwargs st) as [[pk st']|] eqn:Hc; [|done].
  simpl. by eapply reach_create.
Qed.

Lemma demo_s4_reachable : reachable Demo.s4.
Proof.
  do 4 (apply state_of_reachable; [|vm_compute; reflexivity]).
  apply reach_empty.
Qed.

Lemma demo_s6_reachable : reachable Demo.s6.
Proof.
  do 2 (apply state_of_reachable; [|vm_compute; reflexivity]).
  apply demo_s4_reachable.
Qed.

Lemma inventory_triple_declared :
  declared_unique Inventory ["warehouse"; "product"; "batch"].
Proof. right. by left. Qed.

(** C2, as stated, fails on a null batch: a second Inventory row with the
    triple (warehouse 0, product 0, no batch) of a stored row is accepted,
    and the reachable state [Demo.s6] holds two rows with that triple. *)
Lemma inventory_triple_counterexample :
  ¬ (∀ st now kwargs k r,
       st Inventory !! k = Some r →
       Forall (λ c, r !! c = init Inventory kwargs !! c)
              ["warehouse"; "product"; "batch"] →
       ∃ e, create now Inventory kwargs st = Err e)
  ∧ ¬ (∀ st, reachable st →
       ∀ k1 k2 r1 r2,
         st Inventory !! k1 = Some r1 → st Inventory !! k2 = Some r2 →
         Forall (λ c, r1 !! c = r2 !! c) ["warehouse"; "product"; "batch"] →
         k1 = k2).
Proof.
  split.
  - intros H.
    destruct (H Demo.s5 10%nat Demo.stock_without_batch 1%nat
                (row_at Demo.s5 Inventory 1)) as [e He].
    + apply row_at_stored. vm_compute. reflexivity.
    + repeat constructor; vm_compute; reflexivity.
    + assert (is_ok (create 10 Inventory Demo.stock_without_batch Demo.s5)
              = true) as Hok by (vm_compute; reflexivity).
      by rewrite He in Hok.
  - intros H.
    assert (1%nat = 2%nat) as Heq; [|done].
    apply (H Demo.s6 demo_s6_reachable 1%nat 2%nat
             (row_at Demo.s6 Inventory 1) (row_at Demo.s6 Inventory 2)).
    + apply row_at_stored. vm_compute. reflexivity.
    + apply row_at_stored. vm_compute. reflexivity.
    + repeat constructor; vm_compute; reflexivity.
Qed.

(** C2, amended.  An Inventory row whose (warehouse, product, batch), with
    a batch that is not null, is already stored is refused with a violation
    of the unique index on the triple; and in every reachable state no two
    Inventory rows that have a batch carry the same triple. *)
Theorem inventory_triple_unique :
  (∀ st now kwargs k r w p b,
     st Inventory !! k = Some r →
     r !! "warehouse" = Some (VRef w) →
     r !! "product" = Some (VRef p) →
     r !! "batch" = Some (VRef b) →
     init Inventory kwargs !! "warehouse" = Some (VRef w) →
     init Inventory kwargs !! "product" = Some (VRef p) →
     init Inventory kwargs !! "batch" = Some (VRef b) →
     (∃ e, create now Inventory kwargs st = Err e)
     ∧ (accepted now Inventory kwargs →
        ∃ vs, create now Inventory kwargs st = Err (IntegrityError vs)
              ∧ UniqueViolation ["warehouse"; "product"; "batch"] ∈ vs))
  ∧ (∀ st, reachable st →
     ∀ k1 k2 r1 r2,
       st Inventory !! k1 = Some r1 → st Inventory !! k2 = Some r2 →
       r1 !! "warehouse" = r2 !! "warehouse" →
       r1 !! "product" = r2 !! "product" →
       r1 !! "batch" = r2 !! "batch" →
       r1 !! "batch" ≠ Some VNull →
       k1 = k2).
Proof.
  split.
  - intros st now kwargs k r w p b Hk Hw Hp Hb Hiw Hip Hib.
    the_field Inventory "warehouse" as fw Hfw.
    the_field Inventory "product" as fp Hfp.
    the_field Inventory "batch" as fb Hfb.
    eapply create_duplicate; [apply inventory_triple_declared|exact Hk|].
    repeat constructor; try congruence.
    + by exists fw.
    + by exists fp.
    + by exists fb.
  - intros st Hst k1 k2 r1 r2 H1 H2 Hw Hp Hb Hnn.
    pose proof (reachable_rows_ok st Hst Inventory k1 r1 H1) as Hok.
    the_field Inventory "warehouse" as fw Hfw.
    the_field Inventory "product" as fp Hfp.
    the_field Inventory "batch" as fb Hfb.
    eapply (reachable_unique_on st Inventory _ Hst inventory_triple_declared);
      [exact H1|exact H2|].
    repeat constructor; try done.
    + by apply (not_nullable_not_null Inventory r1 fw).
    + by apply (not_nullable_not_null Inventory r1 fp).
    + destruct (Hok fb Hfb) as (v & Hl & _). simpl in Hl.
      unfold getattr. rewrite Hl. intros ->. by rewrite Hl in Hnn.
Qed.

Lemma inventory_triple_unique_witness :
  ∃ vs, create 9 Inventory Demo.stock_of_batch Demo.s4
        = Err (IntegrityError vs)
        ∧ UniqueViolation ["warehouse"; "product"; "batch"] ∈ vs.
Proof.
  eapply (proj1 inventory_triple_unique Demo.s4 9%nat Demo.stock_of_batch
            0%nat (row_at Demo.s4 Inventory 0) 0%nat 0%nat 0%nat).
  - apply row_at_stored. vm_compute. reflexivity.
  - vm_compute. reflexivity.
  - vm_compute. reflexivity.
  - vm_compute. reflexivity.
  - vm_compute. reflexivity.
  - vm_compute. reflexivity.
  - vm_compute. reflexivity.
  - split.
    + apply (bool_decide_unpack _). vm_compute. exact I.
    + vm_compute. reflexivity.
Defined.

Lemma create_stock_without_batch st now w p :
  is_Some (st Warehouse !! w) → is_Some (st Product !! p) →
  let kwargs : row := {[ "warehouse" := VRef w; "product" := VRef p ]} in
  let k := fresh (dom (st Inventory)) in
  create now Inventory kwargs st
  = Ok (k, set_table Inventory
             (<[k := to_row now true Inventory (init Inventory kwargs)]>
                (st Inventory)) st).
Proof.
  intros [rw Hw] [rp Hp] kwargs k. unfold create.
  rewrite decide_True; cycle 1.
  { apply (bool_decide_unpack _). vm_compute. exact I. }
  fold k. unfold write.
  assert (prepared Inventory (to_row now true Inventory (init Inventory kwargs))
          = true) as -> by (vm_compute; reflexivity).
  rewrite violations_nil_intro; [done| |].
  - intros f Hf. unfold field_violations.
    each_field Hf; eval_columns; cbn; rewrite ?Hw, ?Hp; done.
  - intros cols [->|[]%elem_of_nil]%elem_of_cons.
    apply (unique_violation_null _ _ _ "batch"); [set_solver|].
    vm_compute. reflexivity.
Qed.

(** C9.  The unique index on (warehouse, product, batch) does not stop
    duplicates without a batch: for every stored warehouse [w] and product
    [p], two Inventory rows (w, p, no batch) are created one after the
    other, under different keys, and both are stored with a null batch. *)
Theorem null_batch_rows_repeat :
  ∀ st now1 now2 w p,
    is_Some (st Warehouse !! w) → is_Some (st Product !! p) →
    ∃ k1 st1 k2 st2 r1 r2,
      create now1 Inventory {[ "warehouse" := VRef w; "product" := VRef p ]} st
      = Ok (k1, st1)
      ∧ create now2 Inventory
          {[ "warehouse" := VRef w; "product" := VRef p ]} st1
        = Ok (k2, st2)
      ∧ k1 ≠ k2
      ∧ st2 Inventory !! k1 = Some r1 ∧ st2 Inventory !! k2 = Some r2
      ∧ Forall (λ c, r1 !! c = r2 !! c) ["warehouse"; "product"; "batch"]
      ∧ r1 !! "warehouse" = Some (VRef w)
      ∧ r1 !! "product" = Some (VRef p)
      ∧ r1 !! "batch" = Some VNull.
Proof.
  intros st now1 now2 w p Hw Hp.
  pose proof (create_stock_without_batch st now1 w p Hw Hp) as H1.
  cbv zeta in H1.
  set (k1 := fresh (dom (st Inventory))) in *.
  set (r1 := to_row now1 true Inventory _) in *.
  set (st1 := set_table Inventory _ st) in *.
  assert (st1 Inventory = <[k1 := r1]> (st Inventory)) as Ht1
    by apply set_table_same.
  pose proof (create_stock_without_batch st1 now2 w p) as H2.
  cbv zeta in H2.
  set (k2 := fresh (dom (st1 Inventory))) in *.
  set (r2 := to_row now2 true Inventory _) in *.
  set (st2 := set_table Inventory _ st1) in *.
  assert (k1 ≠ k2) as Hne.
  { apply (fresh_ne (st1 Inventory) k1 r1). rewrite Ht1.
    apply lookup_insert_eq. }
  exists k1, st1, k2, st2, r1, r2. split_and!.
  - exact H1.
  - apply H2; unfold st1; by rewrite set_table_other.
  - exact Hne.
  - unfold st2. rewrite set_table_same, lookup_insert_ne by done.
    rewrite Ht1. apply lookup_insert_eq.
  - unfold st2. rewrite set_table_same. apply lookup_insert_eq.
  - repeat constructor; vm_compute; reflexivity.
  - vm_compute. reflexivity.
  - vm_compute. reflexivity.
  - vm_compute. reflexivity.
Qed.

Lemma null_batch_rows_repeat_witness :
  ∃ k1 st1 k2 st2 r1 r2,
    create 8 Inventory {[ "warehouse" := VRef 0; "product" := VRef 0 ]} Demo.s3
    = Ok (k1, st1)
    ∧ create 9 Inventory {[ "warehouse" := VRef 0; "product" := VRef 0 ]} st1
      = Ok (k2, st2)
    ∧ k1 ≠ k2
    ∧ st2 Inventory !! k1 = Some r1 ∧ st2 Inventory !! k2 = Some r2
    ∧ Forall (λ c, r1 !! c = r2 !! c) ["warehouse"; "product"; "batch"]
    ∧ r1 !! "warehouse" = Some (VRef 0)
    ∧ r1 !! "product" = Some (VRef 0)
    ∧ r1 !! "batch" = Some VNull.
Proof.
  apply (null_batch_rows_repeat Demo.s3 8%nat 9%nat 0%nat 0%nat).
  - apply (bool_decide_unpack _). vm_compute. exact I.
  - apply (bool_decide_unpack _). vm_compute. exact I.
Defined.

Lemma delete_obj_total m pk st :
  is_Some (st m !! pk) → ∃ st', delete_obj m pk st = Ok st'.
Proof. intros [r Hr]. unfold delete_obj. rewrite Hr. eauto. Qed.

(** Under a model of height one the collector takes the object and its
    direct CASCADE referrers, nothing else. *)
Lemma doomed_direct st m pk x :
  cascade_height m = 1%nat →
  x ∈ collect (length all_models) st m pk →
  x = (m, pk) ∨ cascades st (m, pk) x.
Proof.
  intros Hm Hx%elem_of_collect.
  apply rtc_inv in Hx as [<-|(y & Hy & Hyx)]; [by left|right].
  pose proof (cascades_height _ _ _ Hy) as Hlt. simpl in Hlt.
  apply rtc_cascades_height in Hyx as [<-|?]; [done|lia].
Qed.

(** C4.  Deleting a stored Batch succeeds, and every Inventory row that
    referred to it is kept with its batch set to null: warehouse, product,
    quantity, cost price and retail price (and all the rest of the row) are
    as before. *)
Theorem batch_deletion_nulls_inventory :
  ∀ st b,
    is_Some (st Batch !! b) →
    ∃ st',
      delete_obj Batch b st = Ok st'
      ∧ ∀ k r,
          st Inventory !! k = Some r → r !! "batch" = Some (VRef b) →
          ∃ r',
            st' Inventory !! k = Some r'
            ∧ r' !! "batch" = Some VNull
            ∧ Forall (λ c, r' !! c = r !! c)
                ["warehouse"; "product"; "quantity"; "cost_price";
                 "retail_price"]
            ∧ r' = <["batch" := VNull]> r.
Proof.
  intros st b Hb. destruct (delete_obj_total _ _ _ Hb) as [st' Hdel].
  exists st'. split; [done|]. intros k r Hr Hc.
  the_field Inventory "batch" as f Hf.
  exists (<["batch" := VNull]> r). split_and!.
  - by apply (delete_set_null_row Batch b st st' Hdel Inventory f).
  - apply lookup_insert_eq.
  - repeat constructor; by rewrite lookup_insert_ne.
  - done.
Qed.

Lemma batch_deletion_nulls_inventory_witness :
  ∃ st',
    delete_obj Batch 0 Demo.s6 = Ok st'
    ∧ ∀ k r,
        Demo.s6 Inventory !! k = Some r → r !! "batch" = Some (VRef 0) →
        ∃ r',
          st' Inventory !! k = Some r'
          ∧ r' !! "batch" = Some VNull
          ∧ Forall (λ c, r' !! c = r !! c)
              ["warehouse"; "product"; "quantity"; "cost_price";
               "retail_price"]
          ∧ r' = <["batch" := VNull]> r.
Proof.
  apply (batch_deletion_nulls_inventory Demo.s6 0%nat).
  apply (bool_decide_unpack _). vm_compute. exact I.
Defined.

(** C3.  Deleting a stored Product succeeds and removes it together with
    every Batch and every Inventory row whose product it is; afterwards no
    row of any table refers to it.  The cascade takes nothing else from
    these two tables: a Batch of another product is kept as it is, an
    Inventory row of another product is kept up to its batch reference. *)
Theorem product_deletion_cascades :
  ∀ st p,
    is_Some (st Product !! p) →
    ∃ st',
      delete_obj Product p st = Ok st'
      ∧ st' Product !! p = None
      ∧ (∀ k r, st Batch !! k = Some r →
                r !! "product" = Some (VRef p) → st' Batch !! k = None)
      ∧ (∀ k r, st Inventory !! k = Some r →
                r !! "product" = Some (VRef p) → st' Inventory !! k = None)
      ∧ (∀ m f od k r',
           f ∈ fields m → fkind f = ForeignKey Product od →
           st' m !! k = Some r' → r' !! fname f ≠ Some (VRef p))
      ∧ (∀ k r, st Batch !! k = Some r →
                r !! "product" ≠ Some (VRef p) → st' Batch !! k = Some r)
      ∧ (∀ k r, st Inventory !! k = Some r →
                r !! "product" ≠ Some (VRef p) →
                ∃ r', st' Inventory !! k = Some r'
                      ∧ ∀ c, c ≠ "batch" → r' !! c = r !! c).
Proof.
  intros st p Hp. destruct (delete_obj_total _ _ _ Hp) as [st' Hdel].
  exists st'. split; [done|].
  assert ((Product, p) ∈ collect (length all_models) st Product p) as Hroot
    by apply collect_head.
  assert (∀ m k r, st m !! k = Some r → m ≠ Product →
            (m, k) ∈ collect (length all_models) st Product p →
            ∃ f, f ∈ fields m ∧ fkind f = ForeignKey Product CASCADE
                 ∧ r !! fname f = Some (VRef p)) as Hdirect.
  { intros m k r Hr Hm [[= ? ?]|Hc]%doomed_direct; [done| |done].
    inversion Hc as [? ? ? ? f r0 Hf Hk Hr0 Hcol]; subst.
    exists f. split_and!; [done..|]. congruence. }
  split_and!.
  - by eapply delete_target_gone.
  - intros k r Hr Hc. the_field Batch "product" as f Hf.
    by apply (delete_cascade_row Product p st st' Hdel Product p Batch f k r).
  - intros k r Hr Hc. the_field Inventory "product" as f Hf.
    by apply (delete_cascade_row Product p st st' Hdel Product p Inventory f k r).
  - intros m f od k r' Hf Hk Hr'.
    by apply (delete_no_reference Product p st st' Hdel Product p m f od k r').
  - intros k r Hr Hc.
    apply (delete_row_kept Product p st st' Hdel Batch k r Hr).
    + intros Hin. destruct (Hdirect Batch k r Hr) as (f & Hf & Hk & Hcol);
        [done..|].
      each_field Hf; try discriminate Hk. done.
    + intros g Hg. each_field Hg; reflexivity.
  - intros k r Hr Hc. eexists. split.
    + apply (delete_survivor Product p st st' Hdel Inventory k r Hr).
      intros Hin. destruct (Hdirect Inventory k r Hr) as (f & Hf & Hk & Hcol);
        [done..|].
      each_field Hf; try discriminate Hk. done.
    + intros c Hne. apply set_null_lookup_kept.
      intros g Hg Hgc. each_field Hg; try reflexivity. done.
Qed.

Lemma product_deletion_cascades_witness :
  ∃ st',
    delete_obj Product 0 Demo.s6 = Ok st'
    ∧ st' Product !! 0%nat = None
    ∧ (∀ k r, Demo.s6 Batch !! k = Some r →
              r !! "product" = Some (VRef 0) → st' Batch !! k = None)
    ∧ (∀ k r, Demo.s6 Inventory !! k = Some r →
              r !! "product" = Some (VRef 0) → st' Inventory !! k = None)
    ∧ (∀ m f od k r',
         f ∈ fields m → fkind f = ForeignKey Product od →
         st' m !! k = Some r' → r' !! fname f ≠ Some (VRef 0))
    ∧ (∀ k r, Demo.s6 Batch !! k = Some r →
              r !! "product" ≠ Some (VRef 0) → st' Batch !! k = Some r)
    ∧ (∀ k r, Demo.s6 Inventory !! k = Some r →
              r !! "product" ≠ Some (VRef 0) →
              ∃ r', st' Inventory !! k = Some r'
                    ∧ ∀ c, c ≠ "batch" → r' !! c = r !! c).
Proof.
  apply (product_deletion_cascades Demo.s6 0%nat).
  apply (bool_decide_unpack _). vm_compute. exact I.
Defined.

Lemma elem_of_foreign_keys m f to od :
  f ∈ fields m → fkind f = ForeignKey to od →
  (m, fname f, to, od, nullable f) ∈ foreign_keys.
Proof.
  intros Hf Hk. unfold foreign_keys.
  apply list_elem_of_bind. exists m. split; [|apply elem_of_all_models].
  apply list_elem_of_bind. exists f. split; [|done].
  rewrite Hk. by left.
Qed.

(** C7.  The schema declares twenty-two foreign keys.  Each required one
    (detail line to its header, Batch and Inventory to Product, documents to
    Warehouse, and the rest) is CASCADE; each nullable one (the batch
    columns, cashier, customer, and the purchase order of a GoodsReceipt) is
    SET_NULL, and there is no other combination.  Deleting a stored object
    succeeds; a row that referred to it through a CASCADE key is deleted,
    a row that referred to it through a SET_NULL key is kept with that one
    column nulled. *)
Theorem foreign_key_policy :
  foreign_keys =
    [ (Batch, "product", Product, CASCADE, false);
      (Inventory, "warehouse", Warehouse, CASCADE, false);
      (Inventory, "product", Product, CASCADE, false);
      (Inventory, "batch", Batch, SET_NULL, true);
      (PurchaseOrder, "supplier", Supplier, CASCADE, false);
      (PurchaseOrder, "warehouse", Warehouse, CASCADE, false);
      (PurchaseOrderDetail, "purchase_order", PurchaseOrder, CASCADE, false);
      (PurchaseOrderDetail, "product", Product, CASCADE, false);
      (GoodsReceipt, "purchase_order", PurchaseOrder, SET_NULL, true);
      (GoodsReceipt, "warehouse", Warehouse, CASCADE, false);
      (GoodsReceiptDetail, "goods_receipt", GoodsReceipt, CASCADE, false);
      (GoodsReceiptDetail, "product", Product, CASCADE, false);
      (GoodsReceiptDetail, "batch", Batch, SET_NULL, true);
      (Sale, "warehouse", Warehouse, CASCADE, false);
      (Sale, "cashier", User, SET_NULL, true);
      (Sale, "customer", Customer, SET_NULL, true);
      (SaleDetail, "sale", Sale, CASCADE, false);
      (SaleDetail, "product", Product, CASCADE, false);
      (SaleDetail, "batch", Batch, SET_NULL, true);
      (WriteOff, "warehouse", Warehouse, CASCADE, false);
      (WriteOff, "product", Product, CASCADE, false);
      (WriteOff, "batch", Batch, SET_NULL, true) ]
  ∧ (∀ m f to od,
       f ∈ fields m → fkind f = ForeignKey to od →
       (od = SET_NULL ↔ nullable f = true)
       ∧ (od = CASCADE ↔ nullable f = false))
  ∧ (∀ st m pk,
       is_Some (st m !! pk) →
       ∃ st',
         delete_obj m pk st = Ok st'
         ∧ ∀ m' f k r,
             f ∈ fields m' → st m' !! k = Some r →
             r !! fname f = Some (VRef pk) →
             (fkind f = ForeignKey m CASCADE → st' m' !! k = None)
             ∧ (fkind f = ForeignKey m SET_NULL →
                st' m' !! k = Some (<[fname f := VNull]> r))).
Proof.
  assert (foreign_keys = _) as Hlist by (vm_compute; reflexivity).
  split_and!.
  - exact Hlist.
  - intros m f to od Hf Hk.
    pose proof (elem_of_foreign_keys m f to od Hf Hk) as Hin.
    rewrite Hlist in Hin.
    clear Hlist Hk Hf. revert Hin. generalize (nullable f), (fname f).
    intros b c Hin.
    repeat (apply elem_of_cons in Hin as [Heq|Hin];
            [injection Heq as -> -> -> -> ->; split; split; done|]).
    by apply elem_of_nil in Hin.
  - intros st m pk Hpk. destruct (delete_obj_total _ _ _ Hpk) as [st' Hdel].
    exists st'. split; [done|]. intros m' f k r Hf Hr Hc. split; intros Hk.
    + eapply (delete_cascade_row m pk st st' Hdel m pk m' f k r); try done.
      apply collect_head.
    + by apply (delete_set_null_row m pk st st' Hdel m' f k r).
Qed.

Lemma foreign_key_policy_witness :
  ∃ st',
    delete_obj Batch 0 Demo.s4 = Ok st'
    ∧ ∀ m' f k r,
        f ∈ fields m' → Demo.s4 m' !! k = Some r →
        r !! fname f = Some (VRef 0) →
        (fkind f = ForeignKey Batch CASCADE → st' m' !! k = None)
        ∧ (fkind f = ForeignKey Batch SET_NULL →
           st' m' !! k = Some (<[fname f := VNull]> r)).
Proof.
  apply (proj2 (proj2 foreign_key_policy) Demo.s4 Batch 0%nat).
  apply (bool_decide_unpack _). vm_compute. exact I.
Defined.

(** ** Validation *)

Lemma clean_fields_clean m inst f :
  f ∈ fields m →
  fname f ∉ (clean_fields m inst).*1 ↔
  (blank_allowed f && empty_value (getattr inst (fname f)) = true
   ∨ clean f (getattr inst (fname f)) = None).
Proof.
  intros Hf. unfold clean_fields. split.
  - intros Hn.
    destruct (blank_allowed f && empty_value (getattr inst (fname f))) eqn:Hb;
      [by left|right].
    destruct (clean f (getattr inst (fname f))) as [e|] eqn:Hc; [|done].
    destruct Hn. apply list_elem_of_fmap. exists (fname f, e). split; [done|].
    apply list_elem_of_bind. exists f. split; [|done].
    simpl. rewrite Hb, Hc. by left.
  - intros Hok ([n e] & Hn & Hin)%list_elem_of_fmap. simpl in Hn. subst n.
    apply list_elem_of_bind in Hin as (g & Hin & Hg). simpl in Hin.
    destruct (blank_allowed g && empty_value (getattr inst (fname g))) eqn:Hb;
      [by apply elem_of_nil in Hin|].
    destruct (clean g (getattr inst (fname g))) as [e'|] eqn:Hc;
      [|by apply elem_of_nil in Hin].
    apply list_elem_of_singleton in Hin as [= Hname ->].
    assert (g = f) as -> by (by eapply fields_name_inj).
    destruct Hok as [Hok|Hok]; congruence.
Qed.

Lemma clean_fields_error m inst f e :
  f ∈ fields m →
  blank_allowed f && empty_value (getattr inst (fname f)) = false →
  clean f (getattr inst (fname f)) = Some e →
  (fname f, e) ∈ clean_fields m inst.
Proof.
  intros Hf Hb Hc. unfold clean_fields.
  apply list_elem_of_bind. exists f. split; [|done].
  simpl. rewrite Hb, Hc. by left.
Qed.

Lemma elem_of_VStr s (l : list string) : VStr s ∈ VStr <$> l ↔ s ∈ l.
Proof.
  rewrite list_elem_of_fmap. split.
  - by intros (s' & [= ->] & ?).
  - eauto.
Qed.

Section choices.
Context (f : field) (cs : list (string * string)) (n : nat).
Hypothesis Hkind : fkind f = CharField.
Hypothesis Hedit : editable f = true.
Hypothesis Hchoices : declared_choices (fopts f) = Some cs.
Hypothesis Hmax : declared_max_length (fopts f) = Some n.
Hypothesis Hnull : nullable f = false.
Hypothesis Hblank : blank_allowed f = false.
Hypothesis Hvalues : Forall (λ s, s ≠ "" ∧ (len s ≤ n)%nat) cs.*1.

Lemma clean_choices v : clean f v = None ↔ v ∈ VStr <$> cs.*1.
Proof.
  rewrite Forall_forall in Hvalues.
  unfold clean, validate, run_validators.
  rewrite Hkind, Hedit, Hchoices, Hmax, Hnull, Hblank. simpl.
  destruct v as [|s| | | | | |]; simpl;
    try (split; [done|by intros (? & ? & ?)%list_elem_of_fmap]).
  case_bool_decide as Hs; simpl.
  - subst s. split; [done|]. intros Hin%elem_of_VStr.
    by destruct (Hvalues _ Hin).
  - case_decide as Hin; [|done]. split; [done|]. intros _.
    apply elem_of_VStr in Hin. destruct (Hvalues _ Hin) as [_ Hlen].
    by rewrite decide_True.
Qed.

Lemma clean_unlisted s :
  s ≠ "" → s ∉ cs.*1 → clean f (VStr s) = Some invalid_choice.
Proof.
  intros Hs Hn. unfold clean, validate.
  rewrite Hkind, Hedit, Hchoices. simpl.
  rewrite bool_decide_eq_false_2 by done.
  rewrite decide_False; [done|]. by rewrite elem_of_VStr.
Qed.
End choices.

Lemma status_validated m f cs n inst :
  get_field m "status" = Some f →
  fkind f = CharField → editable f = true →
  declared_choices (fopts f) = Some cs →
  declared_max_length (fopts f) = Some n →
  nullable f = false → blank_allowed f = false →
  Forall (λ s, s ≠ "" ∧ (len s ≤ n)%nat) cs.*1 →
  ("status" ∉ (clean_fields m inst).*1 ↔
   getattr inst "status" ∈ VStr <$> cs.*1)
  ∧ (∀ s, getattr inst "status" = VStr s → s ≠ "" → s ∉ cs.*1 →
          ("status", invalid_choice) ∈ clean_fields m inst).
Proof.
  intros [Hf Hn]%get_field_Some Hk He Hc Hm Hnull Hb Hv. split.
  - rewrite <- Hn at 1. rewrite (clean_fields_clean m inst f Hf).
    rewrite Hb, Hn. simpl. rewrite (clean_choices f cs n) by done.
    split; [by intros [|]|by right].
  - intros s Hs Hne Hnin. rewrite <- Hn.
    apply clean_fields_error; [done|by rewrite Hb|].
    rewrite Hn, Hs. by eapply clean_unlisted.
Qed.

(** C5.  Field validation of a PurchaseOrder, a GoodsReceipt or a Sale
    passes on [status] exactly when it holds one of the enumerated values;
    any other non-empty string is reported as an invalid choice (and an
    empty or missing status, or a value that is not a string, is reported
    as well). *)
Theorem status_only_enumerated :
  ∀ inst,
    (("status" ∉ (clean_fields PurchaseOrder inst).*1 ↔
      getattr inst "status"
      ∈ [VStr "draft"; VStr "sent"; VStr "received"; VStr "cancelled"])
     ∧ (∀ s, getattr inst "status" = VStr s → s ≠ "" →
             s ∉ ["draft"; "sent"; "received"; "cancelled"] →
             ("status", invalid_choice) ∈ clean_fields PurchaseOrder inst))
    ∧ (("status" ∉ (clean_fields GoodsReceipt inst).*1 ↔
        getattr inst "status"
        ∈ [VStr "pending"; VStr "partial"; VStr "completed"; VStr "rejected"])
       ∧ (∀ s, getattr inst "status" = VStr s → s ≠ "" →
               s ∉ ["pending"; "partial"; "completed"; "rejected"] →
               ("status", invalid_choice) ∈ clean_fields GoodsReceipt inst))
    ∧ (("status" ∉ (clean_fields Sale inst).*1 ↔
        getattr inst "status"
        ∈ [VStr "open"; VStr "completed"; VStr "returned"])
       ∧ (∀ s, getattr inst "status" = VStr s → s ≠ "" →
               s ∉ ["open"; "completed"; "returned"] →
               ("status", invalid_choice) ∈ clean_fields Sale inst)).
Proof.
  intros inst. split; [|split].
  - refine (status_validated PurchaseOrder _ OrderStatus.choices 20 inst
              eq_refl eq_refl eq_refl eq_refl eq_refl eq_refl eq_refl _).
    repeat constructor; (done || vm_compute; lia).
  - refine (status_validated GoodsReceipt _ ReceiptStatus.choices 20 inst
              eq_refl eq_refl eq_refl eq_refl eq_refl eq_refl eq_refl _).
    repeat constructor; (done || vm_compute; lia).
  - refine (status_validated Sale _ SaleStatus.choices 20 inst
              eq_refl eq_refl eq_refl eq_refl eq_refl eq_refl eq_refl _).
    repeat constructor; (done || vm_compute; lia).
Qed.

Lemma status_only_enumerated_witness :
  ("status", invalid_choice)
  ∈ clean_fields PurchaseOrder {[ "status" := VStr "shipped" ]}
  ∧ "status" ∉ (clean_fields Sale {[ "status" := VStr "returned" ]}).*1.
Proof.
  split.
  - apply (proj2 (proj1 (status_only_enumerated _)) "shipped").
    + vm_compute. reflexivity.
    + done.
    + apply (bool_decide_unpack _). vm_compute. exact I.
  - apply (proj1 (proj2 (proj2 (status_only_enumerated _)))).
    apply (bool_decide_unpack _). vm_compute. exact I.
Defined.

(** ** Created and saved rows *)

Lemma create_row now m kwargs st pk st' :
  create now m kwargs st = Ok (pk, st') →
  st' m !! pk = Some (to_row now true m (init m kwargs)).
Proof.
  intros (_ & _ & _ & (_ & _ & ->)%write_Ok)%create_Ok.
  rewrite set_table_same. apply lookup_insert_eq.
Qed.

Lemma save_row now m pk assigns st st' old :
  st m !! pk = Some old → save now m pk assigns st = Ok st' →
  st' m !! pk = Some (to_row now false m (assigns ∪ old)).
Proof.
  intros Hold (old' & Hold' & (_ & _ & ->)%write_Ok)%save_Ok.
  rewrite set_table_same, lookup_insert_eq. congruence.
Qed.

Lemma ok_eta (r : result (nat * db)) :
  is_ok r = true → r = Ok (Demo.key_of r, Demo.state_of r).
Proof. by destruct r as [[k st]|]. Qed.

Lemma ok_eta_db (r : result db) : is_ok r = true → r = Ok (Demo.db_of r).
Proof. by destruct r. Qed.

Lemma elem_of_positive_integer_columns m c :
  (m, c) ∈ positive_integer_columns ↔
  ∃ f, f ∈ fields m ∧ fname f = c ∧ fkind f = PositiveIntegerField.
Proof.
  unfold positive_integer_columns. rewrite list_elem_of_bind. split.
  - intros (m0 & H & _). apply list_elem_of_bind in H as (f & H & Hf).
    case_decide; [|by apply elem_of_nil in H].
    apply list_elem_of_singleton in H as [= -> ->]. eauto.
  - intros (f & Hf & <- & Hk). exists m. split; [|apply elem_of_all_models].
    apply list_elem_of_bind. exists f. split; [|done].
    rewrite decide_True by done. by left.
Qed.

Lemma positive_integer_not_null m f :
  f ∈ fields m → fkind f = PositiveIntegerField → nullable f = false.
Proof.
  intros Hf Hk.
  pose proof (schema_forall
    (λ _ f, match fkind f with
            | PositiveIntegerField => negb (nullable f)
            | _ => true
            end) eq_refl m f Hf) as Hs.
  simpl in Hs. rewrite Hk in Hs. by destruct (nullable f).
Qed.

Lemma check_violation_in st m pk r f z :
  f ∈ fields m → fkind f = PositiveIntegerField →
  getattr r (fname f) = VInt z → z < 0 →
  CheckViolation (fname f) ∈ violations st m pk r.
Proof.
  intros Hf Hk Hv Hz. eapply field_violation_in; [done|].
  unfold field_violations. rewrite Hk, Hv, !elem_of_app. right. left.
  rewrite decide_False by lia. by left.
Qed.

Lemma stamps_not_datetime add f : fkind f ≠ DateTimeField → stamps add f = false.
Proof. unfold stamps. by destruct (fkind f). Qed.

(** C6.  The positive-integer columns are the five quantities and the two
    stock thresholds of Product.  In every reachable state each of them
    holds a non-negative integer; a creation or a save that would store a
    negative one is refused, by the check constraint of the column when the
    row reaches the store. *)
Theorem quantities_non_negative :
  positive_integer_columns =
    [ (Product, "min_stock_level"); (Product, "max_stock_level");
      (Inventory, "quantity"); (PurchaseOrderDetail, "quantity");
      (GoodsReceiptDetail, "quantity"); (SaleDetail, "quantity");
      (WriteOff, "quantity") ]
  ∧ (∀ st, reachable st →
     ∀ m c k r,
       (m, c) ∈ positive_integer_columns → st m !! k = Some r →
       ∃ z, r !! c = Some (VInt z) ∧ 0 ≤ z)
  ∧ (∀ st now m kwargs c z,
       (m, c) ∈ positive_integer_columns →
       kwargs !! c = Some (VInt z) → z < 0 →
       (∃ e, create now m kwargs st = Err e)
       ∧ (accepted now m kwargs →
          ∃ vs, create now m kwargs st = Err (IntegrityError vs)
                ∧ CheckViolation c ∈ vs))
  ∧ (∀ st now m pk assigns c z,
       (m, c) ∈ positive_integer_columns →
       assigns !! c = Some (VInt z) → z < 0 →
       (∃ e, save now m pk assigns st = Err e)
       ∧ (∀ old, st m !! pk = Some old →
            prepared m (to_row now false m (assigns ∪ old)) = true →
            ∃ vs, save now m pk assigns st = Err (IntegrityError vs)
                  ∧ CheckViolation c ∈ vs)).
Proof.
  split_and!.
  - vm_compute. reflexivity.
  - intros st Hst m c k r (f & Hf & <- & Hk)%elem_of_positive_integer_columns Hr.
    destruct (reachable_rows_ok st Hst m k r Hr f Hf)
      as (v & Hl & Hprep & Hnull & Hcheck).
    rewrite Hk in Hprep.
    destruct v as [| |z| | | | |]; try done.
    + specialize (Hnull eq_refl).
      by rewrite (positive_integer_not_null m f) in Hnull.
    + exists z. split; [done|]. by apply Hcheck.
  - intros st now m kwargs c z
      (f & Hf & <- & Hk)%elem_of_positive_integer_columns Hkw Hz.
    apply create_violation.
    apply (check_violation_in _ _ _ _ f z); [done|done| |done].
    rewrite to_row_getattr by done. unfold pre_save.
    rewrite stamps_not_datetime by (by rewrite Hk).
    unfold getattr. by rewrite init_lookup, Hkw.
  - intros st now m pk assigns c z
      (f & Hf & <- & Hk)%elem_of_positive_integer_columns Hkw Hz.
    assert (∀ old, CheckViolation (fname f)
                   ∈ violations st m pk (to_row now false m (assigns ∪ old)))
      as Hviol.
    { intros old. apply (check_violation_in _ _ _ _ f z); [done|done| |done].
      rewrite to_row_getattr by done. unfold pre_save.
      rewrite stamps_not_datetime by (by rewrite Hk).
      unfold getattr. by rewrite (lookup_union_Some_l _ _ _ _ Hkw). }
    split.
    + unfold save. destruct (st m !! pk) as [old|]; [|eauto].
      apply (write_violation_Err _ _ _ _ _ (Hviol old)).
    + intros old Hold Hp. unfold save. rewrite Hold.
      by apply write_violation.
Qed.

Lemma quantities_non_negative_witness :
  (∃ z, row_at Demo.s6 Inventory 0 !! "quantity" = Some (VInt z) ∧ 0 ≤ z)
  ∧ (∃ vs, create 12 Inventory
             {[ "warehouse" := VRef 0; "product" := VRef 0;
                "quantity" := VInt (-1) ]} Demo.s6
           = Err (IntegrityError vs)
           ∧ CheckViolation "quantity" ∈ vs)
  ∧ (∃ e, save 12 Inventory 0 {[ "quantity" := VInt (-5) ]} Demo.s6 = Err e).
Proof.
  destruct quantities_non_negative as (Hcols & Hinv & Hcreate & Hsave).
  assert ((Inventory, "quantity") ∈ positive_integer_columns) as Hin.
  { rewrite Hcols. apply (bool_decide_unpack _). vm_compute. exact I. }
  split_and!.
  - apply (Hinv Demo.s6 demo_s6_reachable Inventory "quantity" 0%nat);
      [done|]. apply row_at_stored. vm_compute. reflexivity.
  - apply (Hcreate Demo.s6 12%nat Inventory _ "quantity" (-1)); [done| |lia|].
    + vm_compute. reflexivity.
    + split.
      * apply (bool_decide_unpack _). vm_compute. exact I.
      * vm_compute. reflexivity.
  - apply (Hsave Demo.s6 12%nat Inventory 0%nat _ "quantity" (-5));
      [done| |lia]. vm_compute. reflexivity.
Defined.

Lemma time_stamped_fields m :
  m ≠ User →
  Field "created_at" DateTimeField [auto_now_add] ∈ fields m
  ∧ Field "updated_at" DateTimeField [auto_now] ∈ fields m.
Proof.
  intros Hm. unfold fields.
  destruct m; try done; simpl; split; set_solver.
Qed.

(** The column update of a deletion touches foreign keys only: neither
    time stamp is among them. *)
Lemma set_null_keeps_stamps doomed m r c :
  c = "created_at" ∨ c = "updated_at" →
  set_null doomed m r !! c = r !! c.
Proof.
  intros Hc. apply set_null_lookup_kept. intros f Hf Hn.
  pose proof (schema_forall
    (λ _ f, match fkind f with
            | ForeignKey _ _ =>
                bool_decide (fname f ≠ "created_at"
                             ∧ fname f ≠ "updated_at")
            | _ => true
            end) eq_refl m f Hf) as Hs.
  simpl in Hs. unfold nulled.
  destruct (fkind f) as [| | | | | | | |to od]; try done.
  apply bool_decide_eq_true in Hs as [H1 H2].
  destruct Hc; congruence.
Qed.

(** C8, as stated, fails twice.  [created_at] is not set once for all: in
    the state [Demo.s1], saving Product 0 with [created_at] assigned the
    date-time 1 succeeds and replaces the date-time 5 of its creation.
    [updated_at] is not refreshed on every update: in the state [Demo.s4],
    deleting Batch 0 updates Inventory row 0, whose batch becomes null,
    and leaves its [updated_at] at the date-time 8 of its creation. *)
Lemma time_stamps_counterexample :
  ¬ (∀ st, reachable st →
     ∀ now m pk assigns st' old r t,
       m ≠ User → st m !! pk = Some old →
       save now m pk assigns st = Ok st' → st' m !! pk = Some r →
       old !! "created_at" = Some t → r !! "created_at" = Some t)
  ∧ ¬ (∀ st, reachable st →
       ∀ m pk st' m' k r r',
         m' ≠ User → delete_obj m pk st = Ok st' →
         st m' !! k = Some r → st' m' !! k = Some r' → r' ≠ r →
         r' !! "updated_at" ≠ r !! "updated_at").
Proof.
  split.
  - assert (∃ st st' old r,
              reachable st
              ∧ st Product !! 0%nat = Some old
              ∧ save 99 Product 0 {[ "created_at" := VTime 1 ]} st = Ok st'
              ∧ st' Product !! 0%nat = Some r
              ∧ old !! "created_at" = Some (VTime 5)
              ∧ r !! "created_at" = Some (VTime 1))
      as (st & st' & old & r & Hst & Hold & Hsave & Hr & Ht & Ht').
    { exists Demo.s1,
        (Demo.db_of (save 99 Product 0 {[ "created_at" := VTime 1 ]}
                       Demo.s1)),
        (row_at Demo.s1 Product 0),
        (row_at (Demo.db_of (save 99 Product 0 {[ "created_at" := VTime 1 ]}
                               Demo.s1)) Product 0).
      split; [|split; [|split; [|split; [|split]]]].
      - apply state_of_reachable; [apply reach_empty|vm_compute; reflexivity].
      - apply row_at_stored. vm_compute. reflexivity.
      - apply ok_eta_db. vm_compute. reflexivity.
      - apply row_at_stored. vm_compute. reflexivity.
      - vm_compute. reflexivity.
      - vm_compute. reflexivity. }
    intros H.
    assert (Product ≠ User) as Hm by discriminate.
    pose proof (H st Hst _ _ _ _ _ _ _ _ Hm Hold Hsave Hr Ht) as Hkept.
    rewrite Ht' in Hkept. discriminate.
  - assert (∃ st st' r r',
              reachable st
              ∧ delete_obj Batch 0 st = Ok st'
              ∧ st Inventory !! 0%nat = Some r
              ∧ st' Inventory !! 0%nat = Some r'
              ∧ r !! "batch" = Some (VRef 0)
              ∧ r' !! "batch" = Some VNull
              ∧ r !! "updated_at" = Some (VTime 8)
              ∧ r' !! "updated_at" = Some (VTime 8))
      as (st & st' & r & r' & Hst & Hdel & Hr & Hr' & Hb & Hb' & Hu & Hu').
    { exists Demo.s4, (Demo.db_of (delete_obj Batch 0 Demo.s4)),
        (row_at Demo.s4 Inventory 0),
        (row_at (Demo.db_of (delete_obj Batch 0 Demo.s4)) Inventory 0).
      split; [|split; [|split; [|split; [|split; [|split; [|split]]]]]].
      - apply demo_s4_reachable.
      - apply ok_eta_db. vm_compute. reflexivity.
      - apply row_at_stored. vm_compute. reflexivity.
      - apply row_at_stored. vm_compute. reflexivity.
      - vm_compute. reflexivity.
      - vm_compute. reflexivity.
      - vm_compute. reflexivity.
      - vm_compute. reflexivity. }
    intros H.
    assert (Inventory ≠ User) as Hm by discriminate.
    assert (r' ≠ r) as Hne by (intros ->; rewrite Hb in Hb'; discriminate).
    apply (H st Hst _ _ _ _ _ _ _ Hm Hdel Hr Hr' Hne).
    by rewrite Hu, Hu'.
Qed.

(** C8, amended.  Each of the thirteen entities has the columns
    [created_at] ([auto_now_add]) and [updated_at] ([auto_now]), and in
    every reachable state each of their rows holds a date-time in both.  A
    creation stores the clock in both.  A save of a stored row stores the
    clock in [updated_at]; it leaves [created_at] as it was when the caller
    did not assign it, and stores the assigned value when the caller did.
    A deletion leaves both columns of every surviving row as they were,
    also in the rows whose references it sets to null. *)
Theorem time_stamps :
  Forall (λ m, Field "created_at" DateTimeField [auto_now_add] ∈ fields m
               ∧ Field "updated_at" DateTimeField [auto_now] ∈ fields m)
    [Product; Batch; Warehouse; Inventory; Supplier; PurchaseOrder;
     PurchaseOrderDetail; GoodsReceipt; GoodsReceiptDetail; Customer; Sale;
     SaleDetail; WriteOff]
  ∧ (∀ st, reachable st →
     ∀ m k r,
       m ≠ User → st m !! k = Some r →
       ∃ t1 t2, r !! "created_at" = Some (VTime t1)
                ∧ r !! "updated_at" = Some (VTime t2))
  ∧ (∀ st now m kwargs pk st',
       m ≠ User → create now m kwargs st = Ok (pk, st') →
       ∃ r, st' m !! pk = Some r
            ∧ r !! "created_at" = Some (VTime now)
            ∧ r !! "updated_at" = Some (VTime now))
  ∧ (∀ st now m pk assigns st' old,
       m ≠ User → st m !! pk = Some old →
       save now m pk assigns st = Ok st' →
       ∃ r, st' m !! pk = Some r
            ∧ r !! "updated_at" = Some (VTime now)
            ∧ (∀ t, old !! "created_at" = Some t →
                    assigns !! "created_at" = None →
                    r !! "created_at" = Some t)
            ∧ (∀ v, assigns !! "created_at" = Some v →
                    r !! "created_at" = Some v))
  ∧ (∀ st m pk st' m' k r',
       delete_obj m pk st = Ok st' → st' m' !! k = Some r' →
       ∃ r, st m' !! k = Some r
            ∧ r' !! "created_at" = r !! "created_at"
            ∧ r' !! "updated_at" = r !! "updated_at").
Proof.
  split; [|split; [|split; [|split]]].
  - repeat constructor; by apply time_stamped_fields.
  - intros st Hst m k r Hm Hr.
    destruct (time_stamped_fields m Hm) as [Hcr Hup].
    pose proof (reachable_rows_ok st Hst m k r Hr) as Hok.
    destruct (Hok _ Hcr) as (v1 & Hl1 & Hp1 & Hn1 & _).
    destruct (Hok _ Hup) as (v2 & Hl2 & Hp2 & Hn2 & _).
    simpl in *.
    destruct v1 as [| | | | | |t1|]; try done; [by specialize (Hn1 eq_refl)|].
    destruct v2 as [| | | | | |t2|]; try done; [by specialize (Hn2 eq_refl)|].
    eauto.
  - intros st now m kwargs pk st' Hm Hc.
    destruct (time_stamped_fields m Hm) as [Hcr Hup].
    eexists. split; [by eapply create_row|]. split.
    + apply (to_row_lookup now true m _ _ Hcr).
    + apply (to_row_lookup now true m _ _ Hup).
  - intros st now m pk assigns st' old Hm Hold Hs.
    destruct (time_stamped_fields m Hm) as [Hcr Hup].
    eexists. split; [by eapply save_row|]. split; [|split].
    + apply (to_row_lookup now false m _ _ Hup).
    + intros t Ht Ha. rewrite (to_row_lookup now false m _ _ Hcr).
      unfold pre_save, getattr. simpl.
      by rewrite (lookup_union_r _ _ _ Ha), Ht.
    + intros v Ha. rewrite (to_row_lookup now false m _ _ Hcr).
      unfold pre_save, getattr. simpl.
      by rewrite (lookup_union_Some_l _ _ _ _ Ha).
  - intros st m pk st' m' k r' Hdel Hr'.
    apply (delete_obj_lookup _ _ _ _ _ _ _ Hdel) in Hr' as (_ & r & Hr & ->).
    exists r. split; [done|].
    split; apply set_null_keeps_stamps; [by left|by right].
Qed.

Lemma time_stamps_witness :
  (∃ r, Demo.s1 Product
          !! Demo.key_of
               (create 5 Product
                  {[ "name" := VStr "aspirin"; "product_code" := VStr "A1" ]}
                  empty_db) = Some r
        ∧ r !! "created_at" = Some (VTime 5)
        ∧ r !! "updated_at" = Some (VTime 5))
  ∧ (∃ r, Demo.db_of
            (save 20 Product 0 {[ "name" := VStr "aspirin forte" ]} Demo.s1)
            Product !! 0%nat = Some r
          ∧ r !! "updated_at" = Some (VTime 20)
          ∧ r !! "created_at" = Some (VTime 5))
  ∧ (∃ r, Demo.s4 Inventory !! 0%nat = Some r
          ∧ row_at (Demo.db_of (delete_obj Batch 0 Demo.s4)) Inventory 0
              !! "created_at" = r !! "created_at"
          ∧ row_at (Demo.db_of (delete_obj Batch 0 Demo.s4)) Inventory 0
              !! "updated_at" = r !! "updated_at").
Proof.
  destruct time_stamps as (_ & _ & Hcreate & Hsave & Hdelete).
  split; [|split].
  - apply (Hcreate empty_db 5%nat Product
             {[ "name" := VStr "aspirin"; "product_code" := VStr "A1" ]});
      [discriminate|].
    apply ok_eta. vm_compute. reflexivity.
  - destruct (Hsave Demo.s1 20%nat Product 0%nat
                {[ "name" := VStr "aspirin forte" ]}
                (Demo.db_of (save 20 Product 0
                               {[ "name" := VStr "aspirin forte" ]} Demo.s1))
                (row_at Demo.s1 Product 0)) as (r & Hr & Hup & Hcr & _).
    + discriminate.
    + apply row_at_stored. vm_compute. reflexivity.
    + apply ok_eta_db. vm_compute. reflexivity.
    + exists r. split; [exact Hr|]. split; [exact Hup|].
      apply Hcr; vm_compute; reflexivity.
  - apply (Hdelete Demo.s4 Batch 0%nat
             (Demo.db_of (delete_obj Batch 0 Demo.s4)) Inventory 0%nat).
    + apply ok_eta_db. vm_compute. reflexivity.
    + apply row_at_stored. vm_compute. reflexivity.
Defined.

(** A column left out of the keyword arguments is stored with its
    default. *)
Lemma create_default now m kwargs st pk st' c f :
  get_field m c = Some f → stamps true f = false →
  create now m kwargs st = Ok (pk, st') → kwargs !! c = None →
  ∃ r, st' m !! pk = Some r ∧ r !! c = Some (get_default f).
Proof.
  intros [Hf <-]%get_field_Some Hs Hc Hkw.
  eexists. split; [by eapply create_row|].
  rewrite to_row_init_lookup, init_lookup by done. by rewrite Hkw.
Qed.

(** C10.  When the keyword arguments leave the column out, a created
    PurchaseOrder is stored with status [draft], a created GoodsReceipt with
    status [pending], a created Sale with status [open] and with payment
    type [cash]. *)
Theorem status_defaults :
  (∀ st now kwargs pk st',
     create now PurchaseOrder kwargs st = Ok (pk, st') →
     kwargs !! "status" = None →
     ∃ r, st' PurchaseOrder !! pk = Some r
          ∧ r !! "status" = Some (VStr "draft"))
  ∧ (∀ st now kwargs pk st',
       create now GoodsReceipt kwargs st = Ok (pk, st') →
       kwargs !! "status" = None →
       ∃ r, st' GoodsReceipt !! pk = Some r
            ∧ r !! "status" = Some (VStr "pending"))
  ∧ (∀ st now kwargs pk st',
       create now Sale kwargs st = Ok (pk, st') →
       kwargs !! "status" = None →
       ∃ r, st' Sale !! pk = Some r ∧ r !! "status" = Some (VStr "open"))
  ∧ (∀ st now kwargs pk st',
       create now Sale kwargs st = Ok (pk, st') →
       kwargs !! "payment_type" = None →
       ∃ r, st' Sale !! pk = Some r
            ∧ r !! "payment_type" = Some (VStr "cash")).
Proof.
  split_and!; intros st now kwargs pk st' Hc Hkw.
  - by apply (create_default now PurchaseOrder kwargs st pk st' "status" _
                eq_refl eq_refl).
  - by apply (create_default now GoodsReceipt kwargs st pk st' "status" _
                eq_refl eq_refl).
  - by apply (create_default now Sale kwargs st pk st' "status" _
                eq_refl eq_refl).
  - by apply (create_default now Sale kwargs st pk st' "payment_type" _
                eq_refl eq_refl).
Qed.

Lemma status_defaults_witness :
  (∃ r, Demo.state_of
          (create 12 PurchaseOrder
             {[ "supplier" := VRef 0; "warehouse" := VRef 0 ]} Demo.s7)
          PurchaseOrder
          !! Demo.key_of
               (create 12 PurchaseOrder
                  {[ "supplier" := VRef 0; "warehouse" := VRef 0 ]} Demo.s7)
        = Some r
        ∧ r !! "status" = Some (VStr "draft"))
  ∧ (∃ r, Demo.state_of
            (create 12 GoodsReceipt {[ "warehouse" := VRef 0 ]} Demo.s7)
            GoodsReceipt
            !! Demo.key_of
                 (create 12 GoodsReceipt {[ "warehouse" := VRef 0 ]} Demo.s7)
          = Some r
          ∧ r !! "status" = Some (VStr "pending"))
  ∧ (∃ r, Demo.state_of
            (create 12 Sale {[ "warehouse" := VRef 0 ]} Demo.s7) Sale
            !! Demo.key_of
                 (create 12 Sale {[ "warehouse" := VRef 0 ]} Demo.s7)
          = Some r
          ∧ r !! "status" = Some (VStr "open"))
  ∧ (∃ r, Demo.state_of
            (create 12 Sale {[ "warehouse" := VRef 0 ]} Demo.s7) Sale
            !! Demo.key_of
                 (create 12 Sale {[ "warehouse" := VRef 0 ]} Demo.s7)
          = Some r
          ∧ r !! "payment_type" = Some (VStr "cash")).
Proof.
  destruct status_defaults as (Hpo & Hgr & Hsale & Hpay). split_and!.
  - apply (Hpo Demo.s7 12%nat
             {[ "supplier" := VRef 0; "warehouse" := VRef 0 ]}).
    + apply ok_eta. vm_compute. reflexivity.
    + vm_compute. reflexivity.
  - apply (Hgr Demo.s7 12%nat {[ "warehouse" := VRef 0 ]}).
    + apply ok_eta. vm_compute. reflexivity.
    + vm_compute. reflexivity.
  - apply (Hsale Demo.s7 12%nat {[ "warehouse" := VRef 0 ]}).
    + apply ok_eta. vm_compute. reflexivity.
    + vm_compute. reflexivity.
  - apply (Hpay Demo.s7 12%nat {[ "warehouse" := VRef 0 ]}).
    + apply ok_eta. vm_compute. reflexivity.
    + vm_compute. reflexivity.
Defined.

(** * Further properties of the schema *)

Lemma sample_full_reachable : reachable Sample.full.
Proof.
  do 11 (apply state_of_reachable; [|vm_compute; reflexivity]).
  do 1 (apply state_of_reachable; [|vm_compute; reflexivity]).
  apply demo_s6_reachable.
Qed.

(** ** Foreign keys *)

Lemma get_field_elem m n f : get_field m n = Some f → f ∈ fields m.
Proof. by intros [? _]%get_field_Some. Qed.

Lemma cascade_not_nullable m f to :
  f ∈ fields m → fkind f = ForeignKey to CASCADE → nullable f = false.
Proof.
  intros Hf Hk.
  pose proof (schema_forall
    (λ _ f, match fkind f with
            | ForeignKey _ CASCADE => negb (nullable f)
            | _ => true
            end) eq_refl m f Hf) as Hs.
  simpl in Hs. rewrite Hk in Hs. by destruct (nullable f).
Qed.

(** X1.  Referential integrity: in every reachable state a foreign-key
    column of a stored row is either null, which only a SET_NULL column can
    be, or the key of a stored row of the model it points to. *)
Theorem references_resolve :
  ∀ st, reachable st →
  ∀ m k r f to od,
    st m !! k = Some r → f ∈ fields m → fkind f = ForeignKey to od →
    (r !! fname f = Some VNull ∧ od = SET_NULL)
    ∨ (∃ j r', r !! fname f = Some (VRef j) ∧ st to !! j = Some r').
Proof.
  intros st Hst m k r f to od Hr Hf Hk.
  destruct (reachable_rows_ok st Hst m k r Hr f Hf) as (v & Hl & Hp & Hn & _).
  rewrite Hk in Hp. destruct v as [| | | | | | |j]; try done.
  - left. split; [done|]. destruct od; [|done].
    specialize (Hn eq_refl).
    by rewrite (cascade_not_nullable m f to Hf Hk) in Hn.
  - right.
    destruct (reachable_references_ok st Hst m k r f to od j Hr Hf Hk Hl)
      as [r' Hr'].
    eauto.
Qed.

Lemma references_resolve_witness :
  (row_at Demo.s6 Inventory 1 !! "batch" = Some VNull
   ∧ SET_NULL = SET_NULL)
  ∨ (∃ j r', row_at Demo.s6 Inventory 1 !! "batch" = Some (VRef j)
             ∧ Demo.s6 Batch !! j = Some r').
Proof.
  apply (references_resolve Demo.s6 demo_s6_reachable Inventory 1%nat
           (row_at Demo.s6 Inventory 1)
           (Field "batch" (ForeignKey Batch SET_NULL) [blank; null])).
  - apply row_at_stored. vm_compute. reflexivity.
  - apply (get_field_elem Inventory "batch"). vm_compute. reflexivity.
  - reflexivity.
Defined.







(** ** Deletion, in general *)

Lemma nulled_true doomed r f :
  nulled doomed r f = true →
  ∃ to j, fkind f = ForeignKey to SET_NULL
          ∧ r !! fname f = Some (VRef j) ∧ (to, j) ∈ doomed.
Proof.
  unfold nulled.
  destruct (fkind f) as [| | | | | | | |to []]; try done.
  destruct (r !! fname f) as [[| | | | | | |j]|]; try done.
  intros H%bool_decide_eq_true. eauto.
Qed.

Lemma set_null_lookup_inv doomed m r c :
  set_null doomed m r !! c = r !! c
  ∨ (set_null doomed m r !! c = Some VNull
     ∧ ∃ f to j, f ∈ fields m ∧ fname f = c
                 ∧ fkind f = ForeignKey to SET_NULL
                 ∧ r !! c = Some (VRef j) ∧ (to, j) ∈ doomed).
Proof.
  destruct (decide (Exists (λ f, fname f = c ∧ nulled doomed r f = true)
                           (fields m))) as [He|Hn].
  - right. apply Exists_exists in He as (f & Hf & Hc & Hnull). split.
    + apply set_null_lookup_nulled. eauto.
    + destruct (nulled_true _ _ _ Hnull) as (to & j & Hk & Hr & Hin).
      exists f, to, j. subst c. done.
  - left. apply set_null_lookup_kept. intros f Hf Hc.
    destruct (nulled doomed r f) eqn:E; [|done].
    destruct Hn. apply Exists_exists. eauto.
Qed.




Lemma cascades_column st m k m' k' c f r :
  get_field m' c = Some f → fkind f = ForeignKey m CASCADE →
  st m' !! k' = Some r → r !! c = Some (VRef k) →
  cascades st (m, k) (m', k').
Proof.
  intros [Hf <-]%get_field_Some Hk Hr Hc. by econstructor.
Qed.



(** The one SET_NULL column of a GoodsReceipt is its purchase order. *)
Lemma goods_receipt_set_null doomed rg po :
  rg !! "purchase_order" = Some (VRef po) → (PurchaseOrder, po) ∈ doomed →
  set_null doomed GoodsReceipt rg = <["purchase_order" := VNull]> rg.
Proof.
  intros Hc Hin. apply map_eq. intros c.
  destruct (decide (c = "purchase_order")) as [->|Hne].
  - rewrite lookup_insert_eq. apply set_null_lookup_nulled.
    the_field GoodsReceipt "purchase_order" as f Hf.
    exists f. split_and!; [done..|]. unfold nulled. simpl. rewrite Hc.
    by apply bool_decide_eq_true.
  - rewrite lookup_insert_ne by done. apply set_null_lookup_kept.
    intros g Hg Hgc. each_field Hg; try reflexivity. done.
Qed.

(** A goods receipt is collected only with its own warehouse. *)
Lemma goods_receipt_doomed st m pk g rg :
  st GoodsReceipt !! g = Some rg →
  (GoodsReceipt, g) ∈ collect (length all_models) st m pk →
  (m = GoodsReceipt ∧ pk = g)
  ∨ (m = Warehouse ∧ rg !! "warehouse" = Some (VRef pk)).
Proof.
  intros Hg Hin%elem_of_collect.
  apply rtc_inv_r in Hin as [[= -> ->]|(y & Hrtc & Hstep)]; [by left|right].
  inversion Hstep as [m0 k0 ? ? f r Hf Hk Hr Hc]; subst.
  assert (r = rg) as -> by congruence.
  each_field Hf; try discriminate Hk.
  injection Hk as <-. simpl in Hc.
  apply rtc_inv_r in Hrtc as [[= -> ->]|(z & _ & Hz)]; [done|].
  inversion Hz as [? ? ? ? f' r' Hf' Hk' _ _]; subst.
  each_field Hf'; discriminate Hk'.
Qed.

(** X5.  A purchase order that goes with its supplier, or with its
    warehouse, leaves the goods receipts that referred to it in place, with
    a null purchase order; a receipt goes only with its own warehouse. *)
Theorem cascaded_order_nulls_receipt :
  ∀ st m pk st' po rpo g rg,
    delete_obj m pk st = Ok st' →
    st PurchaseOrder !! po = Some rpo →
    st GoodsReceipt !! g = Some rg →
    rg !! "purchase_order" = Some (VRef po) →
    (m = Supplier ∧ rpo !! "supplier" = Some (VRef pk))
    ∨ (m = Warehouse ∧ rpo !! "warehouse" = Some (VRef pk)
       ∧ rg !! "warehouse" ≠ Some (VRef pk)) →
    st' PurchaseOrder !! po = None
    ∧ st' GoodsReceipt !! g = Some (<["purchase_order" := VNull]> rg).
Proof.
  intros st m pk st' po rpo g rg Hdel Hpo Hg Hlink Hcase.
  assert (cascades st (m, pk) (PurchaseOrder, po)) as Hstep.
  { destruct Hcase as [[-> Hs]|(-> & Hw & _)];
      eapply cascades_column; try done; reflexivity. }
  assert ((PurchaseOrder, po) ∈ collect (length all_models) st m pk) as Hin
    by (apply elem_of_collect; by apply rtc_once).
  split; [by eapply delete_doomed_gone|].
  rewrite (delete_survivor m pk st st' Hdel GoodsReceipt g rg Hg).
  - f_equal. by apply (goods_receipt_set_null _ rg po).
  - intros Hd.
    destruct (goods_receipt_doomed _ _ _ _ _ Hg Hd) as [[-> _]|[-> Hw]];
      destruct Hcase as [[? ?]|(? & ? & ?)]; done.
Qed.

Lemma cascaded_order_nulls_receipt_witness :
  Demo.db_of (delete_obj Warehouse 0 Sample.full) PurchaseOrder !! 0%nat = None
  ∧ Demo.db_of (delete_obj Warehouse 0 Sample.full) GoodsReceipt !! 1%nat
    = Some (<["purchase_order" := VNull]> (row_at Sample.full GoodsReceipt 1)).
Proof.
  apply (cascaded_order_nulls_receipt Sample.full Warehouse 0%nat _ 0%nat
           (row_at Sample.full PurchaseOrder 0) 1%nat
           (row_at Sample.full GoodsReceipt 1)).
  - apply ok_eta_db. vm_compute. reflexivity.
  - apply row_at_stored. vm_compute. reflexivity.
  - apply row_at_stored. vm_compute. reflexivity.
  - vm_compute. reflexivity.
  - right. split_and!; [done| |].
    + vm_compute. reflexivity.
    + vm_compute. discriminate.
Defined.

Lemma product_doomed st p m k :
  (m, k) ∈ collect (length all_models) st Product p →
  m = Product ∨ ∃ f, f ∈ fields m ∧ fkind f = ForeignKey Product CASCADE.
Proof.
  intros [[= -> _]|Hc]%doomed_direct; [by left| |done]. right.
  inversion Hc; subst. eauto.
Qed.

Lemma no_product_key m f :
  m ∈ [User; Warehouse; Supplier; PurchaseOrder; GoodsReceipt; Customer; Sale] →
  f ∈ fields m → fkind f ≠ ForeignKey Product CASCADE.
Proof.
  intros Hm Hf Hk.
  repeat (apply elem_of_cons in Hm as [->|Hm];
          [each_field Hf; discriminate Hk|]).
  by apply elem_of_nil in Hm.
Qed.

Lemma document_set_null_target m g to :
  m ∈ [User; Warehouse; Supplier; PurchaseOrder; GoodsReceipt; Customer; Sale] →
  g ∈ fields m → fkind g = ForeignKey to SET_NULL →
  to ∈ [User; Warehouse; Supplier; PurchaseOrder; GoodsReceipt; Customer; Sale].
Proof.
  intros Hm Hg Hk.
  repeat (apply elem_of_cons in Hm as [->|Hm];
          [each_field Hg; try discriminate Hk;
           injection Hk as <-; repeat constructor|]).
  by apply elem_of_nil in Hm.
Qed.

(** X6.  Deleting a Product takes lines, never documents: users,
    warehouses, suppliers, customers, and the purchase orders, goods
    receipts and sales themselves are all left exactly as they were
    (totals included). *)
Theorem product_deletion_keeps_documents :
  ∀ st p st',
    delete_obj Product p st = Ok st' →
    ∀ m, m ∈ [User; Warehouse; Supplier; PurchaseOrder; GoodsReceipt;
              Customer; Sale] →
         st' m = st m.
Proof.
  intros st p st' Hdel m Hm.
  assert (∀ m' j, m' ∈ [User; Warehouse; Supplier; PurchaseOrder;
                        GoodsReceipt; Customer; Sale] →
                  (m', j) ∉ collect (length all_models) st Product p) as Hout.
  { intros m' j Hm' [->|(f & Hf & Hk)]%product_doomed.
    - repeat (apply elem_of_cons in Hm' as [?|Hm']; [done|]).
      by apply elem_of_nil in Hm'.
    - by apply (no_product_key m' f). }
  apply map_eq. intros k.
  destruct (st m !! k) as [r|] eqn:Hr.
  - apply (delete_row_kept Product p st st' Hdel m k r Hr); [by apply Hout|].
    intros g Hg. unfold nulled.
    destruct (fkind g) as [| | | | | | | |to []] eqn:Hgk; try done.
    destruct (r !! fname g) as [[| | | | | | |j]|]; try done.
    apply bool_decide_eq_false, Hout.
    by apply (document_set_null_target m g to).
  - destruct (st' m !! k) as [r'|] eqn:Hr'; [|done].
    apply (delete_obj_lookup _ _ _ _ _ _ _ Hdel) in Hr' as (_ & r & Hr0 & _).
    congruence.
Qed.

Lemma product_deletion_keeps_documents_witness :
  Demo.db_of (delete_obj Product 0 Sample.full) PurchaseOrder
  = Sample.full PurchaseOrder.
Proof.
  apply (product_deletion_keeps_documents Sample.full 0%nat).
  - apply ok_eta_db. vm_compute. reflexivity.
  - repeat constructor.
Defined.

Lemma batch_doomed st b x :
  x ∈ collect (length all_models) st Batch b → x = (Batch, b).
Proof.
  intros [->|Hlt]%elem_of_collect%rtc_cascades_height; [done|].
  simpl in Hlt. lia.
Qed.

(** The one SET_NULL column of an Inventory row is its batch. *)
Lemma inventory_kept doomed r :
  (∀ j, r !! "batch" = Some (VRef j) → (Batch, j) ∉ doomed) →
  ∀ g, g ∈ fields Inventory → nulled doomed r g = false.
Proof.
  intros Hb g Hg. each_field Hg; try reflexivity.
  unfold nulled. simpl.
  destruct (r !! "batch") as [[| | | | | | |j]|] eqn:E; try done.
  apply bool_decide_eq_false. by apply Hb.
Qed.

(** X7.  Deletions can produce the duplicates the unique index would have
    refused: when the two batches of two stock rows are deleted one after
    the other, both rows are kept with a null batch, so that rows of the
    same warehouse and product end up with the same triple. *)
Theorem batch_deletions_merge_stock :
  ∀ st b1 b2 st1 st2 k1 k2 r1 r2,
    b1 ≠ b2 →
    delete_obj Batch b1 st = Ok st1 → delete_obj Batch b2 st1 = Ok st2 →
    st Inventory !! k1 = Some r1 → st Inventory !! k2 = Some r2 →
    r1 !! "batch" = Some (VRef b1) → r2 !! "batch" = Some (VRef b2) →
    k1 ≠ k2
    ∧ st2 Inventory !! k1 = Some (<["batch" := VNull]> r1)
    ∧ st2 Inventory !! k2 = Some (<["batch" := VNull]> r2)
    ∧ (r1 !! "warehouse" = r2 !! "warehouse" →
       r1 !! "product" = r2 !! "product" →
       Forall (λ c, (<["batch" := VNull]> r1 : row) !! c
                    = (<["batch" := VNull]> r2 : row) !! c)
              ["warehouse"; "product"; "batch"]).
Proof.
  intros st b1 b2 st1 st2 k1 k2 r1 r2 Hne Hd1 Hd2 H1 H2 Hb1 Hb2.
  the_field Inventory "batch" as f Hf.
  assert (st1 Inventory !! k1 = Some (<["batch" := VNull]> r1)) as H1'
    by (by apply (delete_set_null_row Batch b1 st st1 Hd1 Inventory f)).
  assert (st1 Inventory !! k2 = Some r2) as H2'.
  { apply (delete_row_kept Batch b1 st st1 Hd1 Inventory k2 r2 H2).
    - by intros [= ]%batch_doomed.
    - apply inventory_kept. intros j Hj [= ->]%batch_doomed. congruence. }
  split_and!.
  - intros ->. congruence.
  - apply (delete_row_kept Batch b2 st1 st2 Hd2 Inventory k1 _ H1').
    + by intros [= ]%batch_doomed.
    + apply inventory_kept. intros j Hj. by rewrite lookup_insert_eq in Hj.
  - by apply (delete_set_null_row Batch b2 st1 st2 Hd2 Inventory f).
  - intros Hw Hp. repeat constructor.
    + by rewrite !lookup_insert_ne.
    + by rewrite !lookup_insert_ne.
    + by rewrite !lookup_insert_eq.
Qed.

Lemma batch_deletions_merge_stock_witness :
  0%nat ≠ 1%nat
  ∧ Demo.db_of
      (delete_obj Batch 1 (Demo.db_of (delete_obj Batch 0 Sample.two_batches)))
      Inventory !! 0%nat
    = Some (<["batch" := VNull]> (row_at Sample.two_batches Inventory 0))
  ∧ Demo.db_of
      (delete_obj Batch 1 (Demo.db_of (delete_obj Batch 0 Sample.two_batches)))
      Inventory !! 1%nat
    = Some (<["batch" := VNull]> (row_at Sample.two_batches Inventory 1)).
Proof.
  destruct (batch_deletions_merge_stock Sample.two_batches 0%nat 1%nat
              (Demo.db_of (delete_obj Batch 0 Sample.two_batches))
              (Demo.db_of
                 (delete_obj Batch 1
                    (Demo.db_of (delete_obj Batch 0 Sample.two_batches))))
              0%nat 1%nat
              (row_at Sample.two_batches Inventory 0)
              (row_at Sample.two_batches Inventory 1))
    as (H0 & H1 & H2 & _).
  - discriminate.
  - apply ok_eta_db. vm_compute. reflexivity.
  - apply ok_eta_db. vm_compute. reflexivity.
  - apply row_at_stored. vm_compute. reflexivity.
  - apply row_at_stored. vm_compute. reflexivity.
  - vm_compute. reflexivity.
  - vm_compute. reflexivity.
  - exact (conj H0 (conj H1 H2)).
Defined.

(** ** Creation and saving *)

Lemma write_frame m pk r st st' :
  write m pk r st = Ok st' →
  st' m !! pk = Some r
  ∧ (∀ k, k ≠ pk → st' m !! k = st m !! k)
  ∧ (∀ m', m' ≠ m → st' m' = st m').
Proof.
  intros (_ & _ & ->)%write_Ok. split_and!.
  - rewrite set_table_same. apply lookup_insert_eq.
  - intros k Hk. rewrite set_table_same. by rewrite lookup_insert_ne.
  - intros m' Hm. by apply set_table_other.
Qed.

Lemma elem_of_stamped_columns add m c :
  (m, c) ∈ stamped_columns add ↔
  ∃ f, f ∈ fields m ∧ fname f = c ∧ stamps add f = true.
Proof.
  unfold stamped_columns. rewrite list_elem_of_bind. split.
  - intros (m0 & H & _). apply list_elem_of_bind in H as (f & H & Hf).
    destruct (stamps add f) eqn:E; [|by apply elem_of_nil in H].
    apply list_elem_of_singleton in H as [= -> ->]. eauto.
  - intros (f & Hf & <- & Hs). exists m. split; [|apply elem_of_all_models].
    apply list_elem_of_bind. exists f. split; [|done].
    rewrite Hs. by left.
Qed.

(** X9.  The dates of the documents.  On insertion the clock is stored in
    [created_at], [updated_at] and in [order_date], [receipt_date] and
    [sale_date], whatever the caller supplied for them; on a save the clock
    is stored in [updated_at] alone, whatever the caller assigned to it,
    and a document date is kept unless the caller assigns it. *)
Theorem document_dates :
  stamped_columns true =
    [ (Product, "created_at"); (Product, "updated_at");
      (Batch, "created_at"); (Batch, "updated_at");
      (Warehouse, "created_at"); (Warehouse, "updated_at");
      (Inventory, "created_at"); (Inventory, "updated_at");
      (Supplier, "created_at"); (Supplier, "updated_at");
      (PurchaseOrder, "created_at"); (PurchaseOrder, "updated_at");
      (PurchaseOrder, "order_date");
      (PurchaseOrderDetail, "created_at"); (PurchaseOrderDetail, "updated_at");
      (GoodsReceipt, "created_at"); (GoodsReceipt, "updated_at");
      (GoodsReceipt, "receipt_date");
      (GoodsReceiptDetail, "created_at"); (GoodsReceiptDetail, "updated_at");
      (Customer, "created_at"); (Customer, "updated_at");
      (Sale, "created_at"); (Sale, "updated_at"); (Sale, "sale_date");
      (SaleDetail, "created_at"); (SaleDetail, "updated_at");
      (WriteOff, "created_at"); (WriteOff, "updated_at") ]
  ∧ (∀ m c, (m, c) ∈ stamped_columns false ↔ (m ≠ User ∧ c = "updated_at"))
  ∧ (∀ st now m kwargs pk st' c,
       create now m kwargs st = Ok (pk, st') →
       (m, c) ∈ stamped_columns true →
       ∃ r, st' m !! pk = Some r ∧ r !! c = Some (VTime now))
  ∧ (∀ st now m pk assigns st' old c,
       st m !! pk = Some old → save now m pk assigns st = Ok st' →
       (m, c) ∈ stamped_columns true →
       ∃ r, st' m !! pk = Some r
            ∧ (c = "updated_at" → r !! c = Some (VTime now))
            ∧ (c ≠ "updated_at" → assigns !! c = None →
               ∀ t, old !! c = Some t → r !! c = Some t)).
Proof.
  assert (∀ m c, (m, c) ∈ stamped_columns false ↔ (m ≠ User ∧ c = "updated_at"))
    as Hfalse.
  { intros m c.
    assert (stamped_columns false
            = (λ m, (m, "updated_at"))
                <$> [Product; Batch; Warehouse; Inventory; Supplier;
                     PurchaseOrder; PurchaseOrderDetail; GoodsReceipt;
                     GoodsReceiptDetail; Customer; Sale; SaleDetail; WriteOff])
      as -> by (vm_compute; reflexivity).
    rewrite list_elem_of_fmap. split.
    - intros (m' & [= -> ->] & Hin). split; [|done]. intros ->.
      repeat (apply elem_of_cons in Hin as [?|Hin]; [done|]).
      by apply elem_of_nil in Hin.
    - intros [Hm ->]. exists m. split; [done|].
      destruct m; try done; repeat constructor. }
  split_and!.
  - vm_compute. reflexivity.
  - exact Hfalse.
  - intros st now m kwargs pk st' c Hc
      (f & Hf & <- & Hs)%elem_of_stamped_columns.
    eexists. split; [by eapply create_row|].
    rewrite to_row_lookup by done. unfold pre_save. by rewrite Hs.
  - intros st now m pk assigns st' old c Hold Hsave
      (f & Hf & <- & Hs)%elem_of_stamped_columns.
    eexists. split; [by eapply save_row|]. split.
    + intros Hc. rewrite to_row_lookup by done. unfold pre_save.
      assert ((m, fname f) ∈ stamped_columns false) as Hin.
      { apply Hfalse. split; [|done]. intros ->. each_field Hf. done. }
      apply elem_of_stamped_columns in Hin as (f' & Hf' & Hn & Hs').
      rewrite (fields_name_inj m f' f Hf' Hf Hn) in Hs'. by rewrite Hs'.
    + intros Hc Ha t Ht. rewrite to_row_lookup by done. unfold pre_save.
      assert (stamps false f = false) as ->.
      { destruct (stamps false f) eqn:E; [|done]. destruct Hc.
        apply (proj1 (Hfalse m (fname f))).
        apply elem_of_stamped_columns. eauto. }
      unfold getattr. by rewrite (lookup_union_r _ _ _ Ha), Ht.
Qed.

Lemma document_dates_witness :
  ∃ r, Demo.state_of
         (create 12 PurchaseOrder
            {[ "supplier" := VRef 0; "warehouse" := VRef 0;
               "order_date" := VTime 1 ]} Demo.s7) PurchaseOrder
         !! Demo.key_of
              (create 12 PurchaseOrder
                 {[ "supplier" := VRef 0; "warehouse" := VRef 0;
                    "order_date" := VTime 1 ]} Demo.s7)
       = Some r
       ∧ r !! "order_date" = Some (VTime 12).
Proof.
  destruct document_dates as (Hcols & _ & Hcreate & _).
  apply (Hcreate Demo.s7 12%nat PurchaseOrder
           {[ "supplier" := VRef 0; "warehouse" := VRef 0;
              "order_date" := VTime 1 ]}).
  - apply ok_eta. vm_compute. reflexivity.
  - rewrite Hcols. apply (bool_decide_unpack _). vm_compute. exact I.
Defined.

Lemma save_violation now st m pk assigns old v :
  st m !! pk = Some old →
  v ∈ violations st m pk (to_row now false m (assigns ∪ old)) →
  (∃ e, save now m pk assigns st = Err e)
  ∧ (prepared m (to_row now false m (assigns ∪ old)) = true →
     ∃ vs, save now m pk assigns st = Err (IntegrityError vs) ∧ v ∈ vs).
Proof.
  intros Hold Hv. unfold save. rewrite Hold. split.
  - by eapply write_violation_Err.
  - intros Hp. by apply write_violation.
Qed.

Lemma saved_getattr now m assigns old f v :
  f ∈ fields m → stamps false f = false → assigns !! fname f = Some v →
  to_row now false m (assigns ∪ old) !! fname f = Some v.
Proof.
  intros Hf Hs Ha. rewrite to_row_lookup by done. unfold pre_save, getattr.
  by rewrite Hs, (lookup_union_Some_l _ _ _ _ Ha).
Qed.

(** X10.  The unique indexes hold against updates too.  Saving a Product
    with the [product_code] of another stored Product is refused, and so is
    saving an Inventory row with the warehouse, product and (non-null)
    batch of another stored row. *)
Theorem save_keeps_unique :
  (∀ st now k1 k2 r1 old assigns c,
     st Product !! k1 = Some r1 → st Product !! k2 = Some old → k1 ≠ k2 →
     r1 !! "product_code" = Some (VStr c) →
     assigns !! "product_code" = Some (VStr c) →
     (∃ e, save now Product k2 assigns st = Err e)
     ∧ (prepared Product (to_row now false Product (assigns ∪ old)) = true →
        ∃ vs, save now Product k2 assigns st = Err (IntegrityError vs)
              ∧ UniqueViolation ["product_code"] ∈ vs))
  ∧ (∀ st now k1 k2 r1 old assigns w p b,
       st Inventory !! k1 = Some r1 → st Inventory !! k2 = Some old →
       k1 ≠ k2 →
       r1 !! "warehouse" = Some (VRef w) → r1 !! "product" = Some (VRef p) →
       r1 !! "batch" = Some (VRef b) →
       assigns !! "warehouse" = Some (VRef w) →
       assigns !! "product" = Some (VRef p) →
       assigns !! "batch" = Some (VRef b) →
       (∃ e, save now Inventory k2 assigns st = Err e)
       ∧ (prepared Inventory (to_row now false Inventory (assigns ∪ old))
          = true →
          ∃ vs, save now Inventory k2 assigns st = Err (IntegrityError vs)
                ∧ UniqueViolation ["warehouse"; "product"; "batch"] ∈ vs)).
Proof.
  split.
  - intros st now k1 k2 r1 old assigns c H1 H2 Hne Hr Ha.
    the_field Product "product_code" as f Hf.
    apply (save_violation now st Product k2 assigns old _ H2).
    eapply declared_unique_violation;
      [apply product_code_declared|exact H1|exact Hne|].
    assert (to_row now false Product (assigns ∪ old) !! "product_code"
            = Some (VStr c)) as E
      by (by apply (saved_getattr now Product assigns old f)).
    repeat constructor.
    + unfold getattr. by rewrite E.
    + by rewrite E.
  - intros st now k1 k2 r1 old assigns w p b H1 H2 Hne Hw Hp Hb Haw Hap Hab.
    the_field Inventory "warehouse" as fw Hfw.
    the_field Inventory "product" as fp Hfp.
    the_field Inventory "batch" as fb Hfb.
    apply (save_violation now st Inventory k2 assigns old _ H2).
    eapply declared_unique_violation;
      [apply inventory_triple_declared|exact H1|exact Hne|].
    pose proof (saved_getattr now Inventory assigns old fw _ Hfw eq_refl Haw)
      as Ew.
    pose proof (saved_getattr now Inventory assigns old fp _ Hfp eq_refl Hap)
      as Ep.
    pose proof (saved_getattr now Inventory assigns old fb _ Hfb eq_refl Hab)
      as Eb.
    simpl in Ew, Ep, Eb.
    repeat constructor; unfold getattr; rewrite ?Ew, ?Ep, ?Eb; done.
Qed.

Lemma save_keeps_unique_witness :
  ∃ vs, save 30 Inventory 1 {[ "warehouse" := VRef 0; "product" := VRef 0;
                               "batch" := VRef 0 ]} Demo.s6
        = Err (IntegrityError vs)
        ∧ UniqueViolation ["warehouse"; "product"; "batch"] ∈ vs.
Proof.
  apply (proj2 save_keeps_unique Demo.s6 30%nat 0%nat 1%nat
           (row_at Demo.s6 Inventory 0) (row_at Demo.s6 Inventory 1)
           {[ "warehouse" := VRef 0; "product" := VRef 0; "batch" := VRef 0 ]}
           0%nat 0%nat 0%nat).
  - apply row_at_stored. vm_compute. reflexivity.
  - apply row_at_stored. vm_compute. reflexivity.
  - discriminate.
  - vm_compute. reflexivity.
  - vm_compute. reflexivity.
  - vm_compute. reflexivity.
  - vm_compute. reflexivity.
  - vm_compute. reflexivity.
  - vm_compute. reflexivity.
  - vm_compute. reflexivity.
Defined.

(** ** Saving a stored row again *)

Lemma reachable_rows_exact st : reachable st → rows_exact st.
Proof.
  induction 1 as [|now m kwargs st pk st' _ IH Hc
                  |now m pk assigns st st' _ IH Hs
                  |m pk st st' _ IH Hd].
  - intros m k r c. unfold empty_db. by rewrite lookup_empty.
  - apply create_Ok in Hc as (_ & _ & _ & (_ & _ & ->)%write_Ok).
    intros m' k r c. destruct (decide (m' = m)) as [->|Hm].
    + rewrite set_table_same, lookup_insert. case_decide.
      * intros [= <-] Hn. by apply to_row_lookup_None.
      * apply IH.
    + rewrite set_table_other by done. apply IH.
  - apply save_Ok in Hs as (old & _ & (_ & _ & ->)%write_Ok).
    intros m' k r c. destruct (decide (m' = m)) as [->|Hm].
    + rewrite set_table_same, lookup_insert. case_decide.
      * intros [= <-] Hn. by apply to_row_lookup_None.
      * apply IH.
    + rewrite set_table_other by done. apply IH.
  - intros m' k r' c Hr' Hc.
    apply (delete_obj_lookup _ _ _ _ _ _ _ Hd) in Hr' as (_ & r & Hr & ->).
    rewrite set_null_lookup_kept; [by eapply IH|].
    intros f Hf Hn. destruct Hc. subst c. by apply list_elem_of_fmap_2.
Qed.

Lemma stamps_false_updated m f :
  f ∈ fields m → stamps false f = bool_decide (fname f = "updated_at").
Proof.
  intros Hf.
  pose proof (schema_forall
    (λ _ f, bool_decide
              (stamps false f = bool_decide (fname f = "updated_at")))
    eq_refl m f Hf) as Hs.
  by apply bool_decide_eq_true in Hs.
Qed.

Lemma stamps_datetime add f : stamps add f = true → fkind f = DateTimeField.
Proof. unfold stamps. by destruct (fkind f). Qed.

Lemma updated_at_field m :
  time_stamped m = true ↔ "updated_at" ∈ field_names m.
Proof.
  split.
  - intros Hm. destruct m; try done; apply (bool_decide_unpack _);
      vm_compute; exact I.
  - intros Hin. destruct m; [|done..].
    apply list_elem_of_In in Hin. vm_compute in Hin.
    by destruct Hin as [?|[]].
Qed.

(** The row a save without assignments writes. *)
Lemma resaved_row now m r :
  row_ok m r → (∀ c, c ∉ field_names m → r !! c = None) →
  to_row now false m r
  = if time_stamped m then <["updated_at" := VTime now]> r else r.
Proof.
  intros Hok Hexact. apply map_eq. intros c.
  destruct (decide (c ∈ field_names m)) as [Hin|Hout].
  - apply list_elem_of_fmap in Hin as (f & -> & Hf).
    rewrite to_row_lookup by done. unfold pre_save.
    rewrite (stamps_false_updated m f Hf).
    destruct (Hok f Hf) as (v & Hl & _).
    case_bool_decide as Hn.
    + assert (time_stamped m = true) as ->.
      { apply updated_at_field. rewrite <- Hn. by apply list_elem_of_fmap_2. }
      by rewrite Hn, lookup_insert_eq.
    + unfold getattr. rewrite Hl.
      destruct (time_stamped m); [|done]. by rewrite lookup_insert_ne.
  - rewrite to_row_lookup_None by done.
    destruct (time_stamped m) eqn:Hm; [|by rewrite Hexact].
    rewrite lookup_insert_ne; [by rewrite Hexact|].
    intros <-. apply Hout. by apply updated_at_field.
Qed.

Lemma unique_violation_self (t : table) cols pk r r' :
  unique_on t cols → t !! pk = Some r →
  Forall (λ c, r' !! c = r !! c) cols →
  unique_violation (delete pk t) cols r' = [].
Proof.
  intros Hu Hr Hsame. unfold unique_violation.
  rewrite decide_False; [done|]. intros [Hnn Htaken].
  apply map_Exists_lookup in Htaken as (k & r'' & Hk & Hall).
  apply lookup_delete_Some in Hk as [Hne Hk].
  apply Hne. symmetry. apply (Hu k pk r'' r Hk Hr).
  rewrite Forall_forall in Hnn, Hsame, Hall. apply Forall_forall.
  intros c Hc. split.
  - rewrite (getattr_agree _ _ _ (Hall c Hc)). by apply Hnn.
  - rewrite (Hall c Hc). by apply Hsame.
Qed.

Lemma declared_unique_not_stamp m cols :
  declared_unique m cols → "updated_at" ∉ cols.
Proof.
  intros [(f & Hf & Hu & ->)|Hc].
  - pose proof (schema_forall
      (λ _ f, negb (is_unique f) || negb (bool_decide (fname f = "updated_at")))
      eq_refl m f Hf) as Hs.
    simpl in Hs. rewrite Hu in Hs.
    intros Hin%list_elem_of_singleton. rewrite <- Hin in Hs.
    by rewrite bool_decide_eq_true_2 in Hs.
  - destruct m; try (by apply elem_of_nil in Hc).
    apply list_elem_of_singleton in Hc as ->.
    intros Hin. repeat (apply elem_of_cons in Hin as [?|Hin]; [done|]).
    by apply elem_of_nil in Hin.
Qed.

(** X11.  Every stored row of a reachable state can be saved again: the
    save succeeds, and it changes nothing but [updated_at], which takes the
    clock (nothing at all in a row without time stamps). *)
Theorem resave_refreshes_updated_at :
  ∀ st, reachable st →
  ∀ now m pk r,
    st m !! pk = Some r →
    ∃ st',
      save now m pk ∅ st = Ok st'
      ∧ st' m !! pk
        = Some (if time_stamped m then <["updated_at" := VTime now]> r else r)
      ∧ (∀ k, k ≠ pk → st' m !! k = st m !! k)
      ∧ (∀ m', m' ≠ m → st' m' = st m').
Proof.
  intros st Hst now m pk r Hr.
  pose proof (reachable_rows_ok st Hst m pk r Hr) as Hok.
  pose proof (reachable_rows_exact st Hst m pk r) as Hexact.
  specialize (λ c, Hexact c Hr).
  pose proof (resaved_row now m r Hok Hexact) as Hrow.
  set (r' := if time_stamped m then <["updated_at" := VTime now]> r else r)
    in *.
  assert (∀ c, c ≠ "updated_at" → r' !! c = r !! c) as Hsame.
  { intros c Hc. unfold r'. destruct (time_stamped m); [|done].
    by rewrite lookup_insert_ne. }
  assert (∀ f, f ∈ fields m →
            (fname f = "updated_at" ∧ fkind f = DateTimeField
             ∧ getattr r' (fname f) = VTime now)
            ∨ (fname f ≠ "updated_at"
               ∧ ∃ v, r !! fname f = Some v ∧ getattr r' (fname f) = v
                      ∧ column_ok f v)) as Hcol.
  { intros f Hf. destruct (decide (fname f = "updated_at")) as [Hn|Hn].
    - left. split_and!; [done| |].
      + apply (stamps_datetime false).
        rewrite (stamps_false_updated m f Hf). by apply bool_decide_eq_true.
      + rewrite <- Hrow, to_row_getattr by done. unfold pre_save.
        rewrite (stamps_false_updated m f Hf).
        by rewrite bool_decide_eq_true_2.
    - right. split; [done|]. destruct (Hok f Hf) as (v & Hl & Hv).
      exists v. split_and!; [done| |done].
      unfold getattr. by rewrite (Hsame _ Hn), Hl. }
  assert (prepared m r' = true) as Hprep.
  { unfold prepared. apply forallb_forall. intros f Hf%list_elem_of_In.
    destruct (Hcol f Hf) as [(_ & -> & ->)|(_ & v & _ & -> & Hp & _)]; done. }
  assert (violations st m pk r' = []) as Hviol.
  { apply violations_nil_intro.
    - intros f Hf. unfold field_violations.
      assert ((if is_unique f
               then unique_violation (delete pk (st m)) [fname f] r'
               else []) = []) as ->.
      { destruct (is_unique f) eqn:Hu; [|done].
        apply (unique_violation_self _ _ _ r);
          [apply (reachable_unique_on st m _ Hst); left; eauto|done|].
        constructor; [|constructor]. apply Hsame. intros Hn.
        apply (declared_unique_not_stamp m [fname f]); [left; eauto|].
        rewrite Hn. by left. }
      destruct (Hcol f Hf)
        as [(_ & -> & ->)|(_ & v & Hl & -> & Hp & Hnull & Hcheck)].
      + by rewrite andb_false_r.
      + assert ((if negb (nullable f) && bool_decide (v = VNull)
                 then [NotNullViolation (fname f)] else []) = []) as ->.
        { case_bool_decide as Hv; [|by rewrite andb_false_r].
          by rewrite (Hnull Hv). }
        simpl. rewrite app_nil_r.
        destruct (fkind f) as [| | | | | | | |to od] eqn:Hk;
          destruct v as [| |z| | | | |j]; try done.
        * rewrite decide_True; [done|]. by apply Hcheck.
        * destruct (reachable_references_ok st Hst m pk r f to od j
                      Hr Hf Hk Hl) as [x ->]. done.
    - intros cols Hc.
      apply (unique_violation_self _ _ _ r);
        [apply (reachable_unique_on st m _ Hst); by right|done|].
      apply Forall_forall. intros c Hin. apply Hsame. intros ->.
      by apply (declared_unique_not_stamp m cols); [right|]. }
  assert (write m pk r' st = Ok (set_table m (<[pk := r']> (st m)) st)) as Hw.
  { unfold write. by rewrite Hprep, Hviol. }
  eexists. split.
  - unfold save. rewrite Hr, map_empty_union, Hrow. exact Hw.
  - by apply write_frame.
Qed.

Lemma resave_refreshes_updated_at_witness :
  ∃ st',
    save 40 Inventory 0 ∅ Sample.full = Ok st'
    ∧ st' Inventory !! 0%nat
      = Some (<["updated_at" := VTime 40]> (row_at Sample.full Inventory 0))
    ∧ (∀ k, k ≠ 0%nat → st' Inventory !! k = Sample.full Inventory !! k)
    ∧ (∀ m', m' ≠ Inventory → st' m' = Sample.full m').
Proof.
  apply (resave_refreshes_updated_at Sample.full sample_full_reachable
           40%nat Inventory 0%nat).
  apply row_at_stored. vm_compute. reflexivity.
Defined.

(** ** String representations *)

Section representations.
Context (str_date : nat → string) (str_datetime : nat → string).

Lemma text_column m r c f :
  row_ok m r → get_field m c = Some f →
  empty_strings_allowed (fkind f) = true → nullable f = false →
  ∃ s, getattr r c = VStr s.
Proof.
  intros Hok [Hf <-]%get_field_Some Hk Hn.
  destruct (Hok f Hf) as (v & Hl & Hp & Hnull & _).
  unfold getattr. rewrite Hl.
  destruct (fkind f); try done;
    destruct v; try done; eauto; by rewrite Hnull in Hn.
Qed.

Lemma integer_column m r c f :
  row_ok m r → get_field m c = Some f →
  fkind f = PositiveIntegerField → nullable f = false →
  ∃ z, getattr r c = VInt z ∧ 0 ≤ z.
Proof.
  intros Hok [Hf <-]%get_field_Some Hk Hn.
  destruct (Hok f Hf) as (v & Hl & Hp & Hnull & Hcheck).
  unfold getattr. rewrite Hl. rewrite Hk in Hp.
  destruct v; try done; [by rewrite Hnull in Hn|]. eauto.
Qed.

Lemma datetime_column m r c f :
  row_ok m r → get_field m c = Some f →
  fkind f = DateTimeField → nullable f = false →
  ∃ t, getattr r c = VTime t.
Proof.
  intros Hok [Hf <-]%get_field_Some Hk Hn.
  destruct (Hok f Hf) as (v & Hl & Hp & Hnull & _).
  unfold getattr. rewrite Hl. rewrite Hk in Hp.
  destruct v; try done; [by rewrite Hnull in Hn|]. eauto.
Qed.

Lemma related_resolves st m k r c f to :
  reachable st → st m !! k = Some r →
  get_field m c = Some f → fkind f = ForeignKey to CASCADE →
  ∃ j r', related st to r c = Some (j, r') ∧ st to !! j = Some r'.
Proof.
  intros Hst Hr [Hf <-]%get_field_Some Hk.
  destruct (reachable_rows_ok st Hst m k r Hr f Hf) as (v & Hl & Hp & Hn & _).
  rewrite Hk in Hp. destruct v as [| | | | | | |j]; try done.
  - specialize (Hn eq_refl).
    by rewrite (cascade_not_nullable m f to Hf Hk) in Hn.
  - destruct (reachable_references_ok st Hst m k r f to CASCADE j
                Hr Hf Hk Hl) as [r' Hr'].
    exists j, r'. unfold related. by rewrite Hl, Hr'.
Qed.

(** The name of a stored product, as an f-string shows it. *)
Lemma named st m j r' :
  reachable st → m ∈ [Product; Warehouse] → st m !! j = Some r' →
  ∃ s, attr str_date str_datetime r' "name" = Some s.
Proof.
  intros Hst Hm Hr'.
  pose proof (reachable_rows_ok st Hst m j r' Hr') as Hok.
  unfold attr.
  repeat (apply elem_of_cons in Hm as [->|Hm];
          [destruct (text_column _ r' "name" _ Hok eq_refl eq_refl eq_refl)
             as [s ->]; by exists s|]).
  by apply elem_of_nil in Hm.
Qed.

(** X12.  In a reachable state no [__str__] raises: every reference a
    method follows is a required one, which resolves, and every column a
    method formats holds a value of its type. *)
Theorem str_never_raises :
  ∀ st, reachable st →
  ∀ m k r, st m !! k = Some r →
           is_Some (__str__ str_date str_datetime st m k r).
Proof.
  intros st Hst m k r Hr.
  pose proof (reachable_rows_ok st Hst m k r Hr) as Hok.
  assert (∀ c f to,
            get_field m c = Some f → fkind f = ForeignKey to CASCADE →
            ∃ j r', related st to r c = Some (j, r')
                    ∧ st to !! j = Some r') as Hrel
    by (intros; by eapply related_resolves).
  assert (∀ c f, get_field m c = Some f →
            empty_strings_allowed (fkind f) = true → nullable f = false →
            ∃ s, getattr r c = VStr s) as Htext
    by (intros; by eapply text_column).
  assert (∀ c f, get_field m c = Some f →
            fkind f = PositiveIntegerField → nullable f = false →
            ∃ z, getattr r c = VInt z) as Hint.
  { intros c f ???.
    destruct (integer_column m r c f) as (z & ? & _); eauto. }
  assert (∀ c f, get_field m c = Some f →
            fkind f = DateTimeField → nullable f = false →
            ∃ t, getattr r c = VTime t) as Htime
    by (intros; by eapply datetime_column).
  assert (∀ j r', st Product !! j = Some r' →
            ∃ s, attr str_date str_datetime r' "name" = Some s) as Hpn
    by (intros; eapply (named st Product); [done|repeat constructor|done]).
  assert (∀ j r', st Warehouse !! j = Some r' →
            ∃ s, attr str_date str_datetime r' "name" = Some s) as Hwn
    by (intros; eapply (named st Warehouse); [done|repeat constructor|done]).
  destruct m; unfold __str__, str_attr, date_attr, attr.
  - destruct (Htext "username" _ eq_refl eq_refl eq_refl) as [s ->]. eauto.
  - destruct (Htext "name" _ eq_refl eq_refl eq_refl) as [s ->]. eauto.
  - destruct (Hrel "product" _ _ eq_refl eq_refl) as (j & r' & -> & Hj).
    destruct (Hpn j r' Hj) as [s Hs]. unfold attr in Hs. simpl. rewrite Hs.
    destruct (Htext "batch_number" _ eq_refl eq_refl eq_refl) as [b ->].
    simpl. eauto.
  - destruct (Htext "name" _ eq_refl eq_refl eq_refl) as [s ->]. eauto.
  - destruct (Hrel "warehouse" _ _ eq_refl eq_refl) as (w & rw & -> & Hw).
    destruct (Hwn w rw Hw) as [wn Hs]. unfold attr in Hs. simpl. rewrite Hs.
    destruct (Hrel "product" _ _ eq_refl eq_refl) as (j & r' & -> & Hj).
    destruct (Hpn j r' Hj) as [pn Hp]. unfold attr in Hp. simpl. rewrite Hp.
    destruct (Hint "quantity" _ eq_refl eq_refl eq_refl) as [z ->].
    simpl. eauto.
  - destruct (Htext "name" _ eq_refl eq_refl eq_refl) as [s ->]. eauto.
  - destruct (Htime "order_date" _ eq_refl eq_refl eq_refl) as [t ->].
    simpl. eauto.
  - destruct (Hrel "product" _ _ eq_refl eq_refl) as (j & r' & -> & Hj).
    destruct (Hpn j r' Hj) as [pn Hp]. unfold attr in Hp. simpl. rewrite Hp.
    destruct (Hint "quantity" _ eq_refl eq_refl eq_refl) as [z ->].
    simpl. eauto.
  - destruct (Htime "receipt_date" _ eq_refl eq_refl eq_refl) as [t ->].
    simpl. eauto.
  - destruct (Hrel "goods_receipt" _ _ eq_refl eq_refl) as (g & rg & -> & _).
    destruct (Hrel "product" _ _ eq_refl eq_refl) as (j & r' & -> & Hj).
    destruct (Hpn j r' Hj) as [pn Hp]. unfold attr in Hp. simpl. rewrite Hp.
    simpl. eauto.
  - destruct (Htext "name" _ eq_refl eq_refl eq_refl) as [s ->].
    destruct (Htext "surname" _ eq_refl eq_refl eq_refl) as [s' ->].
    simpl. eauto.
  - destruct (Htime "sale_date" _ eq_refl eq_refl eq_refl) as [t ->].
    simpl. eauto.
  - destruct (Hrel "sale" _ _ eq_refl eq_refl) as (g & rg & -> & _).
    destruct (Hrel "product" _ _ eq_refl eq_refl) as (j & r' & -> & Hj).
    destruct (Hpn j r' Hj) as [pn Hp]. unfold attr in Hp. simpl. rewrite Hp.
    simpl. eauto.
  - destruct (Hrel "product" _ _ eq_refl eq_refl) as (j & r' & -> & Hj).
    destruct (Hpn j r' Hj) as [pn Hp]. unfold attr in Hp. simpl. rewrite Hp.
    destruct (Hint "quantity" _ eq_refl eq_refl eq_refl) as [z ->].
    simpl. eauto.
Qed.
End representations.

Lemma str_never_raises_witness :
  is_Some (__str__ pretty pretty Sample.full WriteOff 0
             (row_at Sample.full WriteOff 0)).
Proof.
  apply (str_never_raises pretty pretty Sample.full sample_full_reachable).
  apply row_at_stored. vm_compute. reflexivity.
Defined.

Lemma batch_key_name m f od :
  f ∈ fields m → fkind f = ForeignKey Batch od → fname f = "batch".
Proof.
  intros Hf Hk.
  pose proof (schema_forall
    (λ _ f, match fkind f with
            | ForeignKey Batch _ => bool_decide (fname f = "batch")
            | _ => true
            end) eq_refl m f Hf) as Hs.
  simpl in Hs. rewrite Hk in Hs. by apply bool_decide_eq_true in Hs.
Qed.

Lemma batch_deletion_column st b m r c :
  c ≠ "batch" →
  set_null (collect (length all_models) st Batch b) m r !! c = r !! c.
Proof.
  intros Hc.
  destruct (set_null_lookup_inv (collect (length all_models) st Batch b) m r c)
    as [?|(_ & f & to & j & Hf & Hn & Hk & _ & Hin)]; [done|].
  apply batch_doomed in Hin as [= -> ->].
  destruct Hc. rewrite <- Hn. by eapply batch_key_name.
Qed.

Lemma batch_deletion_row st b st' m k r :
  delete_obj Batch b st = Ok st' → m ≠ Batch → st m !! k = Some r →
  ∃ r', st' m !! k = Some r' ∧ ∀ c, c ≠ "batch" → r' !! c = r !! c.
Proof.
  intros Hdel Hm Hr. eexists. split.
  - apply (delete_survivor Batch b st st' Hdel m k r Hr).
    by intros [= ]%batch_doomed.
  - intros c Hc. by apply batch_deletion_column.
Qed.

Lemma batch_deletion_table st b st' m :
  delete_obj Batch b st = Ok st' →
  (∀ f, f ∈ fields m → fname f ≠ "batch") → m ≠ Batch →
  st' m = st m.
Proof.
  intros Hdel Hnone Hm. apply map_eq. intros k.
  destruct (st m !! k) as [r|] eqn:Hr.
  - apply (delete_row_kept Batch b st st' Hdel m k r Hr).
    + by intros [= ]%batch_doomed.
    + intros g Hg. destruct (nulled _ r g) eqn:E; [|done].
      destruct (nulled_true _ _ _ E) as (to & j & Hk & _ & Hin).
      apply batch_doomed in Hin as [= -> ->].
      destruct (Hnone g Hg). by eapply batch_key_name.
  - destruct (st' m !! k) as [r'|] eqn:Hr'; [|done].
    apply (delete_obj_lookup _ _ _ _ _ _ _ Hdel) in Hr' as (_ & r & Hr0 & _).
    congruence.
Qed.

Section representations.
Context (str_date : nat → string) (str_datetime : nat → string).

(** X13.  No [__str__] other than Batch's own looks at a batch: deleting
    a Batch keeps every row of the other tables and leaves the string of
    each of them as it was. *)
Theorem batch_deletion_keeps_strings :
  ∀ st b st' m k r,
    delete_obj Batch b st = Ok st' → m ≠ Batch → st m !! k = Some r →
    ∃ r', st' m !! k = Some r'
          ∧ __str__ str_date str_datetime st' m k r'
            = __str__ str_date str_datetime st m k r.
Proof.
  intros st b st' m k r Hdel Hm Hr.
  destruct (batch_deletion_row st b st' m k r Hdel Hm Hr) as (r' & Hr' & Hsame).
  exists r'. split; [done|].
  assert (∀ c, c ≠ "batch" → getattr r' c = getattr r c) as Hattr
    by (intros c Hc; unfold getattr; by rewrite Hsame).
  assert (∀ to, to ∈ [Product; Warehouse; GoodsReceipt; Sale] →
                st' to = st to) as Htab.
  { intros to Hto. apply (batch_deletion_table st b st' to Hdel).
    - intros f Hf Hn.
      repeat (apply elem_of_cons in Hto as [->|Hto];
              [each_field Hf; discriminate Hn|]).
      by apply elem_of_nil in Hto.
    - intros ->.
      repeat (apply elem_of_cons in Hto as [?|Hto]; [done|]).
      by apply elem_of_nil in Hto. }
  assert (∀ to c, to ∈ [Product; Warehouse; GoodsReceipt; Sale] →
                  c ≠ "batch" →
                  related st' to r' c = related st to r c) as Hrel.
  { intros to c Hto Hc. unfold related. by rewrite Hsame, (Htab to Hto). }
  destruct m; try done;
    unfold __str__, str_attr, date_attr, attr;
    rewrite ?Hrel by solve [done | repeat constructor];
    rewrite ?Hattr by done; reflexivity.
Qed.

(** X14.  The string of a Batch follows its product: once a Product has
    been saved under a new name, the string of each of its batches shows
    that name, although no Batch row has changed. *)
Theorem batch_string_follows_product :
  ∀ st now p assigns st' n,
    save now Product p assigns st = Ok st' →
    assigns !! "name" = Some (VStr n) →
    st' Batch = st Batch
    ∧ ∀ k r, st Batch !! k = Some r → r !! "product" = Some (VRef p) →
             __str__ str_date str_datetime st' Batch k r
             = (b ← attr str_date str_datetime r "batch_number";
                Some (n +:+ " | Партия: " +:+ b)).
Proof.
  intros st now p assigns st' n Hsave Ha.
  destruct (save_Ok _ _ _ _ _ _ Hsave) as (old & Hold & Hw).
  destruct (write_frame _ _ _ _ _ Hw) as (Hrow & _ & Htab).
  split; [by apply Htab|].
  the_field Product "name" as f Hf.
  pose proof (saved_getattr now Product assigns old f (VStr n) Hf eq_refl Ha)
    as E.
  simpl in E.
  set (new := to_row now false Product (assigns ∪ old)) in *.
  intros k r Hr Hp. unfold __str__, related. rewrite Hp, Hrow. simpl.
  assert (attr str_date str_datetime new "name" = Some n) as ->
    by (unfold attr, getattr; by rewrite E).
  reflexivity.
Qed.
End representations.

Lemma batch_deletion_keeps_strings_witness :
  ∃ r', Demo.db_of (delete_obj Batch 0 Sample.full) WriteOff !! 0%nat = Some r'
        ∧ __str__ pretty pretty (Demo.db_of (delete_obj Batch 0 Sample.full))
            WriteOff 0 r'
          = __str__ pretty pretty Sample.full WriteOff 0
              (row_at Sample.full WriteOff 0).
Proof.
  apply (batch_deletion_keeps_strings pretty pretty Sample.full 0%nat).
  - apply ok_eta_db. vm_compute. reflexivity.
  - discriminate.
  - apply row_at_stored. vm_compute. reflexivity.
Defined.

Lemma batch_string_follows_product_witness :
  __str__ pretty pretty
    (Demo.db_of (save 50 Product 0 {[ "name" := VStr "aspirin forte" ]}
                   Sample.full))
    Batch 0 (row_at Sample.full Batch 0)
  = (b ← attr pretty pretty (row_at Sample.full Batch 0) "batch_number";
     Some ("aspirin forte" +:+ " | Партия: " +:+ b)).
Proof.
  apply (proj2 (batch_string_follows_product pretty pretty Sample.full 50%nat
                  0%nat {[ "name" := VStr "aspirin forte" ]}
                  (Demo.db_of (save 50 Product 0
                                 {[ "name" := VStr "aspirin forte" ]}
                                 Sample.full))
                  "aspirin forte"
                  ltac:(apply ok_eta_db; vm_compute; reflexivity)
                  ltac:(vm_compute; reflexivity)) 0%nat).
  - apply row_at_stored. vm_compute. reflexivity.
  - vm_compute. reflexivity.
Defined.

(** ** Validation of text columns *)

Lemma text_editable m f :
  f ∈ fields m → fkind f = CharField ∨ fkind f = TextField →
  editable f = true.
Proof.
  intros Hf Hk.
  pose proof (schema_forall
    (λ _ f, match fkind f with
            | CharField | TextField => editable f
            | _ => true
            end) eq_refl m f Hf) as Hs.
  simpl in Hs. by destruct Hk as [Hk|Hk]; rewrite Hk in Hs.
Qed.

Lemma elem_of_text_columns m c b n :
  (m, c, b, n) ∈ text_columns →
  ∃ f, f ∈ fields m ∧ fname f = c
       ∧ (fkind f = CharField ∨ fkind f = TextField)
       ∧ declared_choices (fopts f) = None
       ∧ is_blank f = b ∧ declared_max_length (fopts f) = n.
Proof.
  unfold text_columns. rewrite list_elem_of_bind.
  intros (m0 & H & _). apply list_elem_of_bind in H as (f & H & Hf).
  destruct (time_stamped m0); [|by apply elem_of_nil in Hf].
  exists f.
  destruct (fkind f) eqn:Hk; try (by apply elem_of_nil in H);
    destruct (declared_choices (fopts f)) eqn:Hc;
    try (by apply elem_of_nil in H);
    apply list_elem_of_singleton in H as [= -> -> -> ->];
    split_and!; auto.
Qed.

(** What [Field.clean] answers on a string, for a text column without
    choices. *)
Lemma text_clean m f s :
  f ∈ fields m → fkind f = CharField ∨ fkind f = TextField →
  declared_choices (fopts f) = None →
  clean f (VStr s)
  = if bool_decide (s = "") then
      if is_blank f then None else Some blank_error
    else
      match declared_max_length (fopts f) with
      | Some k => if decide (len s ≤ k)%nat then None
                  else Some max_length_error
      | None => None
      end.
Proof.
  intros Hf Hk Hc.
  pose proof (text_editable m f Hf Hk) as He.
  assert (prep_ok (fkind f) (VStr s) = true) as Hp
    by (by destruct Hk as [-> | ->]).
  assert (blank_allowed f = is_blank f) as Hba.
  { unfold blank_allowed. rewrite He. apply orb_false_r. }
  unfold clean, validate, run_validators.
  rewrite He, Hp, Hc, Hba. simpl.
  case_bool_decide as Hs; simpl.
  - destruct (is_blank f); simpl; [|done].
    by destruct (declared_max_length (fopts f)).
  - rewrite andb_false_r.
    by destruct (declared_max_length (fopts f)).
Qed.

(** X15.  The text columns of the module that have no choices, with what
    each declares: whether it may be blank, and its [max_length].  Field
    validation passes an empty string in the blank ones alone, and reports
    it as [blank] in the others; it passes a non-empty string when its
    length in characters is within [max_length], and reports it as
    [max_length] otherwise. *)
Theorem text_validation :
  text_columns =
    [ (Product, "name", false, Some 255%nat);
      (Product, "product_code", false, Some 100%nat);
      (Product, "form", true, Some 100%nat);
      (Product, "composition", true, None);
      (Product, "manufacturer", true, Some 255%nat);
      (Batch, "batch_number", true, Some 100%nat);
      (Warehouse, "name", false, Some 255%nat);
      (Warehouse, "location", true, Some 255%nat);
      (Warehouse, "warehouse_type", true, Some 50%nat);
      (Supplier, "name", false, Some 255%nat);
      (Supplier, "contact_info", true, Some 255%nat);
      (Supplier, "address", true, Some 255%nat);
      (Supplier, "inn", true, Some 20%nat);
      (Supplier, "ogrn", true, Some 20%nat);
      (Customer, "name", true, Some 100%nat);
      (Customer, "surname", true, Some 100%nat);
      (Customer, "phone", true, Some 20%nat);
      (Customer, "discount_card_number", true, Some 50%nat);
      (Sale, "payment_type", false, Some 50%nat);
      (WriteOff, "reason", true, Some 255%nat) ]
  ∧ ∀ m c b n inst s,
      (m, c, b, n) ∈ text_columns → getattr inst c = VStr s →
      ((c ∉ (clean_fields m inst).*1) ↔
       ((s = "" ∧ b = true)
        ∨ (s ≠ "" ∧ ∀ k, n = Some k → (len s ≤ k)%nat)))
      ∧ (s = "" → b = false → (c, blank_error) ∈ clean_fields m inst)
      ∧ (∀ k, n = Some k → (k < len s)%nat →
              (c, max_length_error) ∈ clean_fields m inst).
Proof.
  split; [vm_compute; reflexivity|].
  intros m c b n inst s
    (f & Hf & <- & Hk & Hc & <- & <-)%elem_of_text_columns Hv.
  pose proof (text_clean m f s Hf Hk Hc) as Hclean.
  assert (blank_allowed f = is_blank f) as Hba.
  { unfold blank_allowed. rewrite (text_editable m f Hf Hk).
    apply orb_false_r. }
  split; [|split].
  - rewrite (clean_fields_clean m inst f Hf), Hv, Hclean, Hba. simpl.
    destruct (decide (s = "")) as [->|Hs].
    + rewrite (bool_decide_eq_true_2 ("" = "")) by done.
      rewrite andb_true_r.
      destruct (is_blank f).
      * split; intros _; by left.
      * split; [by intros [|]|]. by intros [[_ ?]|[? _]].
    + rewrite (bool_decide_eq_false_2 (s = "")) by done.
      rewrite andb_false_r.
      destruct (declared_max_length (fopts f)) as [k|].
      * case_decide as Hlen.
        -- split; intros _; [|by right].
           right. split; [done|]. by intros ? [= <-].
        -- split; [by intros [|]|]. intros [[? _]|[_ Hmax]]; [done|].
           destruct Hlen. by apply Hmax.
      * split; intros _; [|by right]. right. split; [done|]. by intros ?.
  - intros -> Hb. apply clean_fields_error; [done| |].
    + by rewrite Hba, Hb.
    + rewrite Hv, Hclean, Hb. done.
  - intros k Hn Hlen.
    assert (s ≠ "") as Hs by (intros ->; simpl in Hlen; lia).
    apply clean_fields_error; [done| |].
    + rewrite Hv. simpl. rewrite (bool_decide_eq_false_2 (s = "")) by done.
      apply andb_false_r.
    + rewrite Hv, Hclean, Hn.
      rewrite (bool_decide_eq_false_2 (s = "")) by done.
      rewrite decide_False by lia. done.
Qed.

Lemma text_validation_witness :
  ("name" ∉ (clean_fields Warehouse
               {[ "name" := VStr "Аптека №1 на Ленина" ]}).*1)
  ∧ ("name", blank_error) ∈ clean_fields Product {[ "name" := VStr "" ]}
  ∧ ("inn", max_length_error)
    ∈ clean_fields Supplier {[ "inn" := VStr "123456789012345678901" ]}.
Proof.
  destruct text_validation as [Hcols H].
  split; [|split].
  - apply (H Warehouse "name" false (Some 255%nat)
             {[ "name" := VStr "Аптека №1 на Ленина" ]}
             "Аптека №1 на Ленина").
    + rewrite Hcols. apply (bool_decide_unpack _). vm_compute. exact I.
    + vm_compute. reflexivity.
    + right. split; [discriminate|].
      intros k Hk. injection Hk as <-. vm_compute. lia.
  - apply (H Product "name" false (Some 255%nat)
             {[ "name" := VStr "" ]} "").
    + rewrite Hcols. apply (bool_decide_unpack _). vm_compute. exact I.
    + vm_compute. reflexivity.
    + reflexivity.
    + reflexivity.
  - destruct (H Supplier "inn" true (Some 20%nat)
                {[ "inn" := VStr "123456789012345678901" ]}
                "123456789012345678901") as (_ & _ & Hmax).
    + rewrite Hcols. apply (bool_decide_unpack _). vm_compute. exact I.
    + vm_compute. reflexivity.
    + apply (Hmax 20%nat eq_refl). vm_compute. lia.
Defined.

(** ** Creation followed by deletion *)

Lemma written_references st m pk r st' :
  references_ok st → st m !! pk = None → write m pk r st = Ok st' →
  ∀ m' k r' f to od j,
    st' m' !! k = Some r' → f ∈ fields m' → fkind f = ForeignKey to od →
    r' !! fname f = Some (VRef j) → (to, j) ≠ (m, pk).
Proof.
  intros Hst Hfree (_ & Hv & ->)%write_Ok m' k r' f to od j Hr' Hf Hk Hc.
  assert (is_Some (st to !! j)) as [x Hx].
  { destruct (decide (m' = m)) as [->|Hm].
    - rewrite set_table_same, lookup_insert in Hr'. case_decide.
      + injection Hr' as <-.
        pose proof (violations_field _ _ _ _ _ Hv Hf) as Hfv.
        unfold field_violations, getattr in Hfv. rewrite Hk, Hc in Hfv.
        apply app_eq_nil in Hfv as [_ [Hfk _]%app_eq_nil].
        destruct (st to !! j); [eauto|done].
      + by eapply Hst.
    - rewrite set_table_other in Hr' by done. by eapply Hst. }
  intros [= -> ->]. congruence.
Qed.

(** X16.  A creation is undone by deleting the created row: in a reachable
    state nothing can refer to the new key, so the deletion removes that
    one row, nulls nothing, and every table is as before the creation. *)
Theorem create_then_delete :
  ∀ st, reachable st →
  ∀ now m kwargs pk st1,
    create now m kwargs st = Ok (pk, st1) →
    ∃ st2, delete_obj m pk st1 = Ok st2 ∧ ∀ m', st2 m' = st m'.
Proof.
  intros st Hst now m kwargs pk st1 Hc.
  destruct (create_Ok _ _ _ _ _ _ Hc) as (_ & _ & Hfree & Hw).
  destruct (write_frame _ _ _ _ _ Hw) as (Hrow & Hrows & Htabs).
  pose proof (written_references st m pk _ st1
                (reachable_references_ok st Hst) Hfree Hw) as Hrefs.
  destruct (delete_obj_total m pk st1) as [st2 Hdel]; [by rewrite Hrow|].
  exists st2. split; [done|].
  assert (∀ x, x ∈ collect (length all_models) st1 m pk → x = (m, pk))
    as Honly.
  { intros x Hx%elem_of_collect.
    apply rtc_inv in Hx as [<-|(y & Hy & _)]; [done|].
    inversion Hy as [? ? m' k' f r Hf Hk Hr Hcol]; subst.
    by destruct (Hrefs m' k' r f m CASCADE pk Hr Hf Hk Hcol). }
  intros m'. apply map_eq. intros k.
  destruct (decide ((m', k) = (m, pk))) as [[= -> ->]|Hne].
  { rewrite Hfree. by eapply delete_target_gone. }
  assert (st1 m' !! k = st m' !! k) as Hsame.
  { destruct (decide (m' = m)) as [->|Hm]; [|by rewrite Htabs].
    apply Hrows. congruence. }
  rewrite <- Hsame. destruct (st1 m' !! k) as [r|] eqn:Hr.
  - apply (delete_row_kept m pk st1 st2 Hdel m' k r Hr).
    + by intros ?%Honly.
    + intros g Hg. destruct (nulled _ r g) eqn:E; [|done].
      destruct (nulled_true _ _ _ E) as (to & j & Hk & Hcol & Hin).
      apply Honly in Hin.
      by destruct (Hrefs m' k r g to SET_NULL j Hr Hg Hk Hcol).
  - destruct (st2 m' !! k) as [r'|] eqn:Hr'; [|done].
    apply (delete_obj_lookup _ _ _ _ _ _ _ Hdel) in Hr' as (_ & r & Hr0 & _).
    congruence.
Qed.

Lemma create_then_delete_witness :
  ∃ st2,
    delete_obj Inventory
      (Demo.key_of (create 9 Inventory Demo.stock_without_batch Demo.s4))
      Demo.s5 = Ok st2
    ∧ ∀ m', st2 m' = Demo.s4 m'.
Proof.
  apply (create_then_delete Demo.s4 demo_s4_reachable 9%nat Inventory
           Demo.stock_without_batch).
  apply ok_eta. vm_compute. reflexivity.
Defined.

(** ** What a save does not check *)


